(** * The push-to-talk assistant client: one conversation turn and its retries

    A shallow embedding of [SampleAssistant] from
    [googlesamples/assistant/grpc/pushtotalk.py]: the request generator
    [gen_assist_requests], the response loop of [assist], the tenacity
    [retry] decorator that wraps it, and the context-manager methods
    [__enter__] and [__exit__].

    Python objects that are mutated ([self], the conversation stream) are
    threaded through a state-and-exception monad; calls to collaborators
    that live outside the class are recorded, in order, in a trace. *)

From Stdlib Require Import List String Ascii ZArith Bool Arith Lia.
From Stdlib.Strings Require Import Byte.
Import ListNotations.

Local Open Scope string_scope.
Local Open Scope list_scope.

Set Implicit Arguments.
Local Set Warnings "-register-all".

(** ** Bytes and exceptions *)

Definition bytes := list byte.

Definition bytes_of (s : string) : bytes := list_byte_of_string s.

(** [grpc.StatusCode]. *)
Inductive StatusCode :=
| OK | CANCELLED | UNKNOWN | INVALID_ARGUMENT | DEADLINE_EXCEEDED
| NOT_FOUND | ALREADY_EXISTS | PERMISSION_DENIED | RESOURCE_EXHAUSTED
| FAILED_PRECONDITION | ABORTED | OUT_OF_RANGE | UNIMPLEMENTED
| INTERNAL | UNAVAILABLE | DATA_LOSS | UNAUTHENTICATED.

(** The exceptions that can travel through [assist]: a [grpc.RpcError]
    raised by the response iterator, the [ValueError] of [json.loads],
    tenacity's [RetryError], and any other exception, by name. *)
Inductive Exception :=
| RpcError (code : StatusCode)
| JSONDecodeError
| RetryError
| OtherError (name : string).

Definition StatusCode_eqb (a b : StatusCode) : bool :=
  match a, b with
  | OK, OK | CANCELLED, CANCELLED | UNKNOWN, UNKNOWN
  | INVALID_ARGUMENT, INVALID_ARGUMENT
  | DEADLINE_EXCEEDED, DEADLINE_EXCEEDED | NOT_FOUND, NOT_FOUND
  | ALREADY_EXISTS, ALREADY_EXISTS | PERMISSION_DENIED, PERMISSION_DENIED
  | RESOURCE_EXHAUSTED, RESOURCE_EXHAUSTED
  | FAILED_PRECONDITION, FAILED_PRECONDITION | ABORTED, ABORTED
  | OUT_OF_RANGE, OUT_OF_RANGE | UNIMPLEMENTED, UNIMPLEMENTED
  | INTERNAL, INTERNAL | UNAVAILABLE, UNAVAILABLE | DATA_LOSS, DATA_LOSS
  | UNAUTHENTICATED, UNAUTHENTICATED => true
  | _, _ => false
  end.

(** [SampleAssistant.is_grpc_error_unavailable]. *)
Definition is_grpc_error_unavailable (e : Exception) : bool :=
  let is_grpc_error := match e with RpcError _ => true | _ => false end in
  match e with
  | RpcError c => is_grpc_error && StatusCode_eqb c UNAVAILABLE
  | _ => false
  end.

(** ** JSON text

    [json.loads] belongs to Python's library.  The turn logic below takes
    the decoder as a parameter; [Json.loads] is a decoder for the same
    grammar, used when a turn is run on concrete text.  String contents and
    number literals are kept as written (escapes are checked, not
    decoded) and the members of an object in their order: the decoded
    value is only handed to the device handler. *)
Module Json.

Inductive value :=
| Null
| Bool (b : bool)
| Number (literal : string)
| Str (s : string)
| Array (items : list value)
| Object (members : list (string * value)).

Definition is_ws (c : ascii) : bool :=
  match c with
  | " "%char | "009"%char | "010"%char | "013"%char => true
  | _ => false
  end.

Fixpoint skip_ws (s : string) : string :=
  match s with
  | String c r => if is_ws c then skip_ws r else s
  | EmptyString => s
  end.

Definition is_digit (c : ascii) : bool :=
  let n := nat_of_ascii c in ((48 <=? n) && (n <=? 57))%nat.

Definition is_hex (c : ascii) : bool :=
  let n := nat_of_ascii c in
  is_digit c || ((65 <=? n) && (n <=? 70))%nat
  || ((97 <=? n) && (n <=? 102))%nat.

(** The longest run of digits at the head of [s], and what follows. *)
Fixpoint digits (s : string) : string * string :=
  match s with
  | String c r =>
      if is_digit c then let (d, r') := digits r in (String c d, r')
      else (EmptyString, s)
  | EmptyString => (EmptyString, s)
  end.

(** The body of a string after its opening quote: up to the closing
    quote, with every escape well formed and no control character. *)
Fixpoint scan_string (s : string) : option (string * string) :=
  match s with
  | EmptyString => None
  | String "034"%char r => Some (EmptyString, r)
  | String "\"%char (String "u"%char
      (String a (String b (String c (String d r))))) =>
      if is_hex a && is_hex b && is_hex c && is_hex d then
        match scan_string r with
        | Some (t, r') =>
            Some (String "\" (String "u" (String a (String b
                    (String c (String d t))))), r')
        | None => None
        end
      else None
  | String "\"%char (String e r) =>
      match e with
      | "034"%char | "\"%char | "/"%char | "b"%char | "f"%char
      | "n"%char | "r"%char | "t"%char =>
          match scan_string r with
          | Some (t, r') => Some (String "\" (String e t), r')
          | None => None
          end
      | _ => None
      end
  | String "\"%char EmptyString => None
  | String c r =>
      if (nat_of_ascii c <? 32)%nat then None
      else match scan_string r with
           | Some (t, r') => Some (String c t, r')
           | None => None
           end
  end.

(** A number at the head of [s]: an optional minus sign; an integer
    part, either a single zero or a digit run that does not start with
    zero; an optional fraction (a dot and at least one digit); an
    optional exponent (e or E, an optional sign, at least one digit).
    An optional part that does not match consumes nothing. *)
Definition scan_number (s : string) : option (string * string) :=
  let (sign, s1) :=
    match s with
    | String "-"%char r => ("-", r)
    | _ => (EmptyString, s)
    end in
  let int_part :=
    match s1 with
    | String "0"%char r => Some ("0", r)
    | String c _ =>
        if is_digit c then Some (digits s1) else None
    | EmptyString => None
    end in
  match int_part with
  | None => None
  | Some (i, s2) =>
      let (frac, s3) :=
        match s2 with
        | String "."%char r =>
            match digits r with
            | (EmptyString, _) => (EmptyString, s2)
            | (d, r') => (String "." d, r')
            end
        | _ => (EmptyString, s2)
        end in
      let (exp, s4) :=
        match s3 with
        | String e r =>
            if (Ascii.eqb e "e" || Ascii.eqb e "E")%bool then
              let (sg, r1) :=
                match r with
                | String "+"%char r' => ("+", r')
                | String "-"%char r' => ("-", r')
                | _ => (EmptyString, r)
                end in
              match digits r1 with
              | (EmptyString, _) => (EmptyString, s3)
              | (d, r') => (String e (sg ++ d)%string, r')
              end
            else (EmptyString, s3)
        | EmptyString => (EmptyString, s3)
        end in
      Some ((sign ++ i ++ frac ++ exp)%string, s4)
  end.

(** [word] at the head of [s]? then the rest. *)
Fixpoint strip_prefix (word s : string) : option string :=
  match word, s with
  | EmptyString, _ => Some s
  | String a w, String b r =>
      if Ascii.eqb a b then strip_prefix w r else None
  | String _ _, EmptyString => None
  end.

Definition scan_literal (s : string) : option (value * string) :=
  match strip_prefix "null" s with
  | Some r => Some (Null, r)
  | None =>
  match strip_prefix "true" s with
  | Some r => Some (Bool true, r)
  | None =>
  match strip_prefix "false" s with
  | Some r => Some (Bool false, r)
  | None =>
  match strip_prefix "NaN" s with
  | Some r => Some (Number "NaN", r)
  | None =>
  match strip_prefix "Infinity" s with
  | Some r => Some (Number "Infinity", r)
  | None =>
  match strip_prefix "-Infinity" s with
  | Some r => Some (Number "-Infinity", r)
  | None => None
  end end end end end end.

(** Recursive descent; [fuel] bounds the nesting and the number of
    items, and [loads] gives more than any text of that length needs. *)
Fixpoint scan_value (fuel : nat) (s : string) : option (value * string) :=
  match fuel with
  | O => None
  | S fuel' =>
      match s with
      | String "034"%char r =>
          match scan_string r with
          | Some (t, r') => Some (Str t, r')
          | None => None
          end
      | String "{"%char r =>
          match skip_ws r with
          | String "}"%char r' => Some (Object [], r')
          | r1 =>
              match scan_members fuel' r1 with
              | Some (ms, r') => Some (Object ms, r')
              | None => None
              end
          end
      | String "["%char r =>
          match skip_ws r with
          | String "]"%char r' => Some (Array [], r')
          | r1 =>
              match scan_items fuel' r1 with
              | Some (vs, r') => Some (Array vs, r')
              | None => None
              end
          end
      | _ =>
          match scan_literal s with
          | Some res => Some res
          | None =>
              match scan_number s with
              | Some (n, r) => Some (Number n, r)
              | None => None
              end
          end
      end
  end

(** The items of an array after its bracket, up to the closing one. *)
with scan_items (fuel : nat) (s : string) : option (list value * string) :=
  match fuel with
  | O => None
  | S fuel' =>
      match scan_value fuel' s with
      | Some (v, r) =>
          match skip_ws r with
          | String "]"%char r' => Some ([v], r')
          | String ","%char r' =>
              match scan_items fuel' (skip_ws r') with
              | Some (vs, r'') => Some (v :: vs, r'')
              | None => None
              end
          | _ => None
          end
      | None => None
      end
  end

(** The members of an object after its brace, up to the closing one. *)
with scan_members (fuel : nat) (s : string)
  : option (list (string * value) * string) :=
  match fuel with
  | O => None
  | S fuel' =>
      match s with
      | String "034"%char r =>
          match scan_string r with
          | Some (k, r1) =>
              match skip_ws r1 with
              | String ":"%char r2 =>
                  match scan_value fuel' (skip_ws r2) with
                  | Some (v, r3) =>
                      match skip_ws r3 with
                      | String "}"%char r' => Some ([(k, v)], r')
                      | String ","%char r' =>
                          match scan_members fuel' (skip_ws r') with
                          | Some (ms, r'') => Some ((k, v) :: ms, r'')
                          | None => None
                          end
                      | _ => None
                      end
                  | None => None
                  end
              | _ => None
              end
          | None => None
          end
      | _ => None
      end
  end.

(** [json.loads]: one value between optional white space, nothing
    after it; [None] stands for the raised decoding error. *)
Definition loads (s : string) : option value :=
  match scan_value (2 * String.length s + 2) (skip_ws s) with
  | Some (v, r) =>
      match skip_ws r with
      | EmptyString => Some v
      | _ => None
      end
  | None => None
  end.

End Json.

(** ** Protocol messages ([embedded_assistant_pb2])

    Only the fields the client reads or writes.  An unset protobuf field
    reads as its default: empty bytes, the empty string, zero, the first
    enumerator. *)

Inductive EventType := EVENT_TYPE_UNSPECIFIED | END_OF_UTTERANCE.

Inductive MicrophoneMode :=
| MICROPHONE_MODE_UNSPECIFIED | CLOSE_MICROPHONE | DIALOG_FOLLOW_ON.

Inductive ScreenMode := SCREEN_MODE_UNSPECIFIED | OFF | PLAYING.

Inductive Encoding := ENCODING_UNSPECIFIED | LINEAR16.

Module SpeechRecognitionResult.
Record t := { transcript : string }.
End SpeechRecognitionResult.

Module AudioOut.
Record t := { audio_data : bytes }.
End AudioOut.

Module DialogStateOut.
Record t := {
  conversation_state : bytes;
  volume_percentage : Z;
  microphone_mode : MicrophoneMode }.
End DialogStateOut.

Module DeviceAction.
Record t := { device_request_json : string }.
End DeviceAction.

Module ScreenOut.
Record t := { data : bytes }.
End ScreenOut.

Module AssistResponse.
Record t := {
  event_type : EventType;
  speech_results : list SpeechRecognitionResult.t;
  audio_out : AudioOut.t;
  dialog_state_out : DialogStateOut.t;
  device_action : DeviceAction.t;
  screen_out : ScreenOut.t }.
End AssistResponse.

Module AudioInConfig.
Record t := { encoding : Encoding; sample_rate_hertz : Z }.
End AudioInConfig.

Module AudioOutConfig.
Record t := {
  encoding : Encoding;
  sample_rate_hertz : Z;
  volume_percentage : Z }.
End AudioOutConfig.

Module DialogStateIn.
Record t := {
  language_code : string;
  conversation_state : bytes;
  is_new_conversation : bool }.
End DialogStateIn.

Module DeviceConfig.
Record t := { device_id : string; device_model_id : string }.
End DeviceConfig.

Module ScreenOutConfig.
Record t := { screen_mode : ScreenMode }.
End ScreenOutConfig.

Module AssistConfig.
Record t := {
  audio_in_config : AudioInConfig.t;
  audio_out_config : AudioOutConfig.t;
  dialog_state_in : DialogStateIn.t;
  device_config : DeviceConfig.t;
  screen_out_config : ScreenOutConfig.t }.
End AssistConfig.

(** [AssistRequest] carries either the configuration or audio. *)
Inductive AssistRequest :=
| Config (config : AssistConfig.t)
| AudioIn (audio_in : bytes).

Definition is_audio_in (r : AssistRequest) : bool :=
  match r with Config _ => false | AudioIn _ => true end.

(** A handle on a device action running in the background
    ([concurrent.futures.Future]). *)
Definition Future := nat.

(** ** The conversation stream *)

Module ConversationStream.

Inductive Mode := Idle | Recording | Playing.

(** Modelled from the spec: [audio_helpers.ConversationStream], the audio
    channel, is not among the sources.  The spec gives it exactly one of
    three modes at any instant, a playback-active flag, sample-rate and
    volume metadata, an input sequence that is drained until recording
    has stopped or the sequence is exhausted, and an output sink that
    consumes chunks.  [closed] counts the calls of [close]. *)
Record t := {
  mode : Mode;
  sample_rate : Z;
  volume_percentage : Z;
  source : list bytes;
  sink : list bytes;
  closed : nat }.

Definition with_mode (m : Mode) (s : t) : t :=
  {| mode := m; sample_rate := sample_rate s;
     volume_percentage := volume_percentage s;
     source := source s; sink := sink s; closed := closed s |}.

Definition playing (s : t) : bool :=
  match mode s with Playing => true | _ => false end.

Definition recording (s : t) : bool :=
  match mode s with Recording => true | _ => false end.

Definition start_recording (s : t) : t := with_mode Recording s.

(** Idempotent: a stream that is not recording is left as it is. *)
Definition stop_recording (s : t) : t :=
  match mode s with Recording => with_mode Idle s | _ => s end.

Definition start_playback (s : t) : t := with_mode Playing s.

Definition stop_playback (s : t) : t :=
  match mode s with Playing => with_mode Idle s | _ => s end.

Definition write (buf : bytes) (s : t) : t :=
  {| mode := mode s; sample_rate := sample_rate s;
     volume_percentage := volume_percentage s;
     source := source s; sink := sink s ++ [buf]; closed := closed s |}.

Definition set_volume_percentage (v : Z) (s : t) : t :=
  {| mode := mode s; sample_rate := sample_rate s;
     volume_percentage := v;
     source := source s; sink := sink s; closed := closed s |}.

Definition close (s : t) : t :=
  {| mode := mode s; sample_rate := sample_rate s;
     volume_percentage := volume_percentage s;
     source := source s; sink := sink s; closed := S (closed s) |}.

(** One step of iterating the stream: the next input chunk, or [None]
    when recording has stopped or the input is exhausted. *)
Definition next (s : t) : option bytes * t :=
  if recording s then
    match source s with
    | chunk :: rest =>
        (Some chunk,
         {| mode := mode s; sample_rate := sample_rate s;
            volume_percentage := volume_percentage s;
            source := rest; sink := sink s; closed := closed s |})
    | [] => (None, s)
    end
  else (None, s).

End ConversationStream.

(** ** The assistant object and the world around it *)

(** The attributes of [self] set by [__init__] ([assistant], [deadline]
    and [device_handler] are the transport and the handler below). *)
Record SampleAssistant := {
  language_code : string;
  device_model_id : string;
  device_id : string;
  conversation_stream : ConversationStream.t;
  display : bool;
  conversation_state : option bytes;
  is_new_conversation : bool }.

(** [SampleAssistant.__init__]. *)
Definition __init__ (language_code device_model_id device_id : string)
    (conversation_stream : ConversationStream.t) (display : bool)
  : SampleAssistant :=
  {| language_code := language_code;
     device_model_id := device_model_id;
     device_id := device_id;
     conversation_stream := conversation_stream;
     display := display;
     conversation_state := None;
     is_new_conversation := true |}.

(** What the collaborators of the class are asked to do, as it happens. *)
Inductive Effect :=
| Did_start_recording
| Did_stop_recording
| Did_start_playback
| Did_stop_playback
| Did_write (buf : bytes)
| Did_set_volume (v : Z)
| Did_close
| Logged_transcript (text : string)
| Yielded (request : AssistRequest)
| Handled (device_request : Json.value)
| Waited (fs : list Future)
| Displayed (data : bytes).

(** [calls] counts the [Assist] RPCs started so far. *)
Record World := {
  self : SampleAssistant;
  trace : list Effect;
  calls : nat }.

(** ** State and exceptions *)

Inductive Outcome (A : Type) :=
| Returned (a : A)
| Raised (e : Exception).

Arguments Raised {A} e.

Definition M (A : Type) : Type := World -> Outcome A * World.

Definition ret {A} (a : A) : M A := fun w => (Returned a, w).

Definition raise {A} (e : Exception) : M A := fun w => (Raised e, w).

Definition bind {A B} (c : M A) (k : A -> M B) : M B :=
  fun w =>
    match c w with
    | (Returned a, w') => k a w'
    | (Raised e, w') => (Raised e, w')
    end.

Notation "x <- c ;; k" := (bind c (fun x => k))
  (at level 61, c at next level, right associativity).
Notation "c ;; k" := (bind c (fun _ => k))
  (at level 61, right associativity).

Definition get : M World := fun w => (Returned w, w).

Definition emit (e : Effect) : M unit :=
  fun w =>
    (Returned tt,
     {| self := self w; trace := trace w ++ [e]; calls := calls w |}).

Definition update_self (f : SampleAssistant -> SampleAssistant) : M unit :=
  fun w =>
    (Returned tt,
     {| self := f (self w); trace := trace w; calls := calls w |}).

Definition when (b : bool) (c : M unit) : M unit :=
  if b then c else ret tt.

Definition with_stream (f : ConversationStream.t -> ConversationStream.t)
    (a : SampleAssistant) : SampleAssistant :=
  {| language_code := language_code a;
     device_model_id := device_model_id a;
     device_id := device_id a;
     conversation_stream := f (conversation_stream a);
     display := display a;
     conversation_state := conversation_state a;
     is_new_conversation := is_new_conversation a |}.

Definition set_conversation_state (cs : option bytes)
    (a : SampleAssistant) : SampleAssistant :=
  {| language_code := language_code a;
     device_model_id := device_model_id a;
     device_id := device_id a;
     conversation_stream := conversation_stream a;
     display := display a;
     conversation_state := cs;
     is_new_conversation := is_new_conversation a |}.

Definition set_is_new_conversation (b : bool)
    (a : SampleAssistant) : SampleAssistant :=
  {| language_code := language_code a;
     device_model_id := device_model_id a;
     device_id := device_id a;
     conversation_stream := conversation_stream a;
     display := display a;
     conversation_state := conversation_state a;
     is_new_conversation := b |}.

(** The methods of [self.conversation_stream], as the class calls them. *)
Definition start_recording : M unit :=
  update_self (with_stream ConversationStream.start_recording) ;;
  emit Did_start_recording.

Definition stop_recording : M unit :=
  update_self (with_stream ConversationStream.stop_recording) ;;
  emit Did_stop_recording.

Definition start_playback : M unit :=
  update_self (with_stream ConversationStream.start_playback) ;;
  emit Did_start_playback.

Definition stop_playback : M unit :=
  update_self (with_stream ConversationStream.stop_playback) ;;
  emit Did_stop_playback.

Definition write (buf : bytes) : M unit :=
  update_self (with_stream (ConversationStream.write buf)) ;;
  emit (Did_write buf).

Definition set_volume_percentage (v : Z) : M unit :=
  update_self (with_stream (ConversationStream.set_volume_percentage v)) ;;
  emit (Did_set_volume v).

Definition close : M unit :=
  update_self (with_stream ConversationStream.close) ;;
  emit Did_close.

(** ** The transport, seen from the client

    During one [Assist] RPC the transport pulls requests off the request
    generator and hands responses to the loop of [assist], in some
    interleaving; in the end the response iterator is exhausted
    ([status = None]) or raises ([status = Some e]). *)
Inductive Step :=
| Pull
| Deliver (resp : AssistResponse.t).

Record Rpc := {
  steps : list Step;
  status : option Exception }.

(** A generator object of [gen_assist_requests]: created and not yet
    started, suspended at one of its [yield]s, or finished. *)
Inductive Generator := GenCreated | GenSuspended | GenFinished.

(** The local variables of one activation of [assist]. *)
Record Frame := {
  continue_conversation : bool;
  device_actions_futures : list Future;
  requests : Generator }.

Definition nonempty {A} (l : list A) : bool :=
  match l with [] => false | _ :: _ => true end.

Definition truthy (s : string) : bool :=
  match s with EmptyString => false | String _ _ => true end.

Definition transcripts (rs : list SpeechRecognitionResult.t) : string :=
  String.concat " " (map SpeechRecognitionResult.transcript rs).

Section Assistant.

(** [Assist n] is what the [n]-th RPC of the session does. *)
Variable Assist : nat -> Rpc.

(** [json.loads]; [None] stands for the raised decoding error. *)
Variable loads : string -> option Json.value.

(** Modelled from the spec: [device_helpers.DeviceRequestHandler], the
    dispatcher behind [self.device_handler], is not among the sources.
    The spec has it take the decoded command and return zero or more
    pending-action handles. *)
Variable device_handler : Json.value -> list Future.

(** *** [gen_assist_requests] *)

(** The [AssistConfig] that [gen_assist_requests] builds from [self]. *)
Definition config_of (s : SampleAssistant) : AssistConfig.t :=
  {| AssistConfig.audio_in_config :=
       {| AudioInConfig.encoding := LINEAR16;
          AudioInConfig.sample_rate_hertz :=
            ConversationStream.sample_rate (conversation_stream s) |};
     AssistConfig.audio_out_config :=
       {| AudioOutConfig.encoding := LINEAR16;
          AudioOutConfig.sample_rate_hertz :=
            ConversationStream.sample_rate (conversation_stream s);
          AudioOutConfig.volume_percentage :=
            ConversationStream.volume_percentage
              (conversation_stream s) |};
     AssistConfig.dialog_state_in :=
       {| DialogStateIn.language_code := language_code s;
          DialogStateIn.conversation_state :=
            match conversation_state s with
            | Some token => token
            | None => []
            end;
          DialogStateIn.is_new_conversation := is_new_conversation s |};
     AssistConfig.device_config :=
       {| DeviceConfig.device_id := device_id s;
          DeviceConfig.device_model_id := device_model_id s |};
     AssistConfig.screen_out_config :=
       {| ScreenOutConfig.screen_mode :=
            if display s then PLAYING else SCREEN_MODE_UNSPECIFIED |} |}.

(** The code of [gen_assist_requests] up to its first [yield]: the
    configuration is built, then the flag is cleared. *)
Definition gen_assist_requests_config : M AssistConfig.t :=
  w <- get ;;
  let config := config_of (self w) in
  update_self (set_is_new_conversation false) ;;
  ret config.

(** [next] on a generator of [gen_assist_requests]: the request it
    yields, if any, and the generator afterwards. *)
Definition gen_assist_requests (g : Generator)
  : M (option AssistRequest * Generator) :=
  match g with
  | GenCreated =>
      config <- gen_assist_requests_config ;;
      ret (Some (Config config), GenSuspended)
  | GenSuspended =>
      w <- get ;;
      let (chunk, stream) :=
        ConversationStream.next (conversation_stream (self w)) in
      update_self (with_stream (fun _ => stream)) ;;
      match chunk with
      | Some data => ret (Some (AudioIn data), GenSuspended)
      | None => ret (None, GenFinished)
      end
  | GenFinished => ret (None, GenFinished)
  end.

(** [iter_log_assist_requests]: the same requests, passed on. *)
Definition iter_log_assist_requests (g : Generator) : M Generator :=
  r <- gen_assist_requests g ;;
  match fst r with
  | Some c => emit (Yielded c) ;; ret (snd r)
  | None => ret (snd r)
  end.

(** *** The loop of [assist] *)

(** The body of [for resp in self.assistant.Assist(...)]. *)
Definition on_response (resp : AssistResponse.t) (l : Frame) : M Frame :=
  let audio_data := AudioOut.audio_data (AssistResponse.audio_out resp) in
  let dialog_state_out := AssistResponse.dialog_state_out resp in
  let device_request_json :=
    DeviceAction.device_request_json (AssistResponse.device_action resp) in
  when (match AssistResponse.event_type resp with
        | END_OF_UTTERANCE => true
        | _ => false
        end)
    stop_recording ;;
  when (nonempty (AssistResponse.speech_results resp))
    (emit (Logged_transcript
             (transcripts (AssistResponse.speech_results resp)))) ;;
  when (0 <? List.length audio_data)%nat
    (w <- get ;;
     when (negb (ConversationStream.playing (conversation_stream (self w))))
       (stop_recording ;; start_playback) ;;
     write audio_data) ;;
  when (nonempty (DialogStateOut.conversation_state dialog_state_out))
    (update_self
       (set_conversation_state
          (Some (DialogStateOut.conversation_state dialog_state_out)))) ;;
  when (negb (DialogStateOut.volume_percentage dialog_state_out =? 0)%Z)
    (set_volume_percentage
       (DialogStateOut.volume_percentage dialog_state_out)) ;;
  let continue_conversation' :=
    match DialogStateOut.microphone_mode dialog_state_out with
    | DIALOG_FOLLOW_ON => true
    | CLOSE_MICROPHONE => false
    | MICROPHONE_MODE_UNSPECIFIED => continue_conversation l
    end in
  device_actions_futures' <-
    (if truthy device_request_json then
       match loads device_request_json with
       | None => raise JSONDecodeError
       | Some device_request =>
           emit (Handled device_request) ;;
           let fs := device_handler device_request in
           ret (device_actions_futures l ++ fs)
       end
     else ret (device_actions_futures l)) ;;
  w <- get ;;
  when (display (self w)
        && nonempty (ScreenOut.data (AssistResponse.screen_out resp)))
    (emit (Displayed (ScreenOut.data (AssistResponse.screen_out resp)))) ;;
  ret {| continue_conversation := continue_conversation';
         device_actions_futures := device_actions_futures';
         requests := requests l |}.

(** One step of the RPC: the transport advances the request generator,
    or the loop receives a response. *)
Definition step (s : Step) (l : Frame) : M Frame :=
  match s with
  | Pull =>
      g <- iter_log_assist_requests (requests l) ;;
      ret {| continue_conversation := continue_conversation l;
             device_actions_futures := device_actions_futures l;
             requests := g |}
  | Deliver resp => on_response resp l
  end.

Fixpoint run (ss : list Step) (l : Frame) : M Frame :=
  match ss with
  | [] => ret l
  | s :: ss' => l' <- step s l ;; run ss' l'
  end.

Definition next_call : M Rpc :=
  fun w =>
    (Returned (Assist (calls w)),
     {| self := self w; trace := trace w; calls := S (calls w) |}).

(** The body of [assist], one attempt. *)
Definition assist_once : M bool :=
  let l0 := {| continue_conversation := false;
               device_actions_futures := [];
               requests := GenCreated |} in
  start_recording ;;
  rpc <- next_call ;;
  l <- run (steps rpc) l0 ;;
  match status rpc with
  | Some e => raise e
  | None =>
      when (nonempty (device_actions_futures l))
        (emit (Waited (device_actions_futures l))) ;;
      stop_playback ;;
      ret (continue_conversation l)
  end.

(** *** The [retry] decorator (tenacity)

    [fn] is called; a return value is passed on.  An exception that
    [predicate] rejects ([retry_if_exception]) is raised again at once.
    One that it accepts leads to another call unless the stop condition
    holds; then, with [reraise], that last exception is raised again,
    and without it a [RetryError].  No waiting is configured.

    The stop condition of the source is [stop_after_attempt(n)]: it
    holds once the attempt number has reached [n], that is, when none
    of the [n] attempts remains. *)

Fixpoint retrying {A} (reraise : bool) (predicate : Exception -> bool)
    (remaining : nat) (fn : M A) : M A :=
  fun w =>
    match fn w with
    | (Returned a, w') => (Returned a, w')
    | (Raised e, w') =>
        if predicate e then
          match remaining with
          | S remaining' => retrying reraise predicate remaining' fn w'
          | O => ((if reraise then Raised e else Raised RetryError), w')
          end
        else (Raised e, w')
    end.

(** [retry(reraise=..., stop=stop_after_attempt(max_attempt_number),
    retry=retry_if_exception(predicate))]: after the first attempt,
    [max_attempt_number - 1] remain. *)
Definition retry {A} (reraise : bool) (max_attempt_number : nat)
    (predicate : Exception -> bool) (fn : M A) : M A :=
  retrying reraise predicate (max_attempt_number - 1) fn.

(** [assist], as decorated. *)
Definition assist : M bool :=
  retry true 3 is_grpc_error_unavailable assist_once.

(** *** The context manager *)

Definition __enter__ : M unit := ret tt.

(** The result is the truth value of what [__exit__] returns. *)
Definition __exit__ (e : option Exception) : M bool :=
  match e with
  | Some _ => ret false
  | None => close ;; ret false
  end.

(** [with SampleAssistant(...) as assistant: body]: an exception of the
    body is raised again unless [__exit__] returns a true value. *)
Definition with_assistant {A} (body : M A) : M (option A) :=
  __enter__ ;;
  fun w =>
    match body w with
    | (Returned a, w1) => (__exit__ None ;; ret (Some a)) w1
    | (Raised e, w1) =>
        (swallow <- __exit__ (Some e) ;;
         if swallow : bool then ret None else raise e) w1
    end.

(** A session of [main]: [n] turns in a row, each a call of [assist]. *)
Fixpoint turns (n : nat) : M unit :=
  match n with
  | O => ret tt
  | S n' => assist ;; turns n'
  end.

Definition session (n : nat) : M (option unit) :=
  with_assistant (turns n).

End Assistant.

(** ** Building responses

    The response with every field unset, and responses that set one
    part of it. *)
Module Response.

Definition empty : AssistResponse.t :=
  {| AssistResponse.event_type := EVENT_TYPE_UNSPECIFIED;
     AssistResponse.speech_results := [];
     AssistResponse.audio_out := {| AudioOut.audio_data := [] |};
     AssistResponse.dialog_state_out :=
       {| DialogStateOut.conversation_state := [];
          DialogStateOut.volume_percentage := 0;
          DialogStateOut.microphone_mode := MICROPHONE_MODE_UNSPECIFIED |};
     AssistResponse.device_action :=
       {| DeviceAction.device_request_json := EmptyString |};
     AssistResponse.screen_out := {| ScreenOut.data := [] |} |}.

Definition event (e : EventType) : AssistResponse.t :=
  {| AssistResponse.event_type := e;
     AssistResponse.speech_results := AssistResponse.speech_results empty;
     AssistResponse.audio_out := AssistResponse.audio_out empty;
     AssistResponse.dialog_state_out :=
       AssistResponse.dialog_state_out empty;
     AssistResponse.device_action := AssistResponse.device_action empty;
     AssistResponse.screen_out := AssistResponse.screen_out empty |}.

Definition audio (buf : bytes) : AssistResponse.t :=
  {| AssistResponse.event_type := AssistResponse.event_type empty;
     AssistResponse.speech_results := AssistResponse.speech_results empty;
     AssistResponse.audio_out := {| AudioOut.audio_data := buf |};
     AssistResponse.dialog_state_out :=
       AssistResponse.dialog_state_out empty;
     AssistResponse.device_action := AssistResponse.device_action empty;
     AssistResponse.screen_out := AssistResponse.screen_out empty |}.

Definition dialog (token : bytes) (volume : Z) (m : MicrophoneMode)
  : AssistResponse.t :=
  {| AssistResponse.event_type := AssistResponse.event_type empty;
     AssistResponse.speech_results := AssistResponse.speech_results empty;
     AssistResponse.audio_out := AssistResponse.audio_out empty;
     AssistResponse.dialog_state_out :=
       {| DialogStateOut.conversation_state := token;
          DialogStateOut.volume_percentage := volume;
          DialogStateOut.microphone_mode := m |};
     AssistResponse.device_action := AssistResponse.device_action empty;
     AssistResponse.screen_out := AssistResponse.screen_out empty |}.

Definition device (json : string) : AssistResponse.t :=
  {| AssistResponse.event_type := AssistResponse.event_type empty;
     AssistResponse.speech_results := AssistResponse.speech_results empty;
     AssistResponse.audio_out := AssistResponse.audio_out empty;
     AssistResponse.dialog_state_out :=
       AssistResponse.dialog_state_out empty;
     AssistResponse.device_action :=
       {| DeviceAction.device_request_json := json |};
     AssistResponse.screen_out := AssistResponse.screen_out empty |}.

End Response.

(** A stream with three input chunks waiting, and a fresh assistant on
    it, as [main] builds them. *)
Definition sample_stream : ConversationStream.t :=
  {| ConversationStream.mode := ConversationStream.Idle;
     ConversationStream.sample_rate := 16000;
     ConversationStream.volume_percentage := 50;
     ConversationStream.source :=
       [bytes_of "a"; bytes_of "b"; bytes_of "c"];
     ConversationStream.sink := [];
     ConversationStream.closed := 0 |}.

Definition sample_world : World :=
  {| self := __init__ "en-US" "model" "device" sample_stream false;
     trace := [];
     calls := 0 |}.

(** A device handler that starts one action per request. *)
Definition sample_handler (_ : Json.value) : list Future := [7].

(** A transport whose every RPC does the same. *)
Definition always (r : Rpc) : nat -> Rpc := fun _ => r.

(** A transport that plays a list of RPCs, then repeats [r]. *)
Definition script (rs : list Rpc) (r : Rpc) : nat -> Rpc :=
  fun n => nth n rs r.

(** ** Vocabulary of the properties *)

(** The effects recorded between two worlds. *)
Definition since (w w' : World) : list Effect :=
  skipn (List.length (trace w)) (trace w').

(** The requests yielded to the transport, in order. *)
Definition yielded (t : list Effect) : list AssistRequest :=
  flat_map (fun e => match e with Yielded r => [r] | _ => [] end) t.

(** The configurations among them. *)
Definition configs (t : list Effect) : list AssistConfig.t :=
  flat_map (fun r => match r with Config c => [c] | AudioIn _ => [] end)
           (yielded t).

(** The buffers written to the stream, in order. *)
Definition written (t : list Effect) : list bytes :=
  flat_map (fun e => match e with Did_write b => [b] | _ => [] end) t.

Definition is_new (c : AssistConfig.t) : bool :=
  DialogStateIn.is_new_conversation (AssistConfig.dialog_state_in c).

Definition token_of (c : AssistConfig.t) : bytes :=
  DialogStateIn.conversation_state (AssistConfig.dialog_state_in c).

(** The responses among the steps of an RPC, in arrival order. *)
Definition delivered (ss : list Step) : list AssistResponse.t :=
  flat_map (fun s => match s with Deliver r => [r] | Pull => [] end) ss.

Definition audio_of (r : AssistResponse.t) : bytes :=
  AudioOut.audio_data (AssistResponse.audio_out r).

Definition mode_of (r : AssistResponse.t) : MicrophoneMode :=
  DialogStateOut.microphone_mode (AssistResponse.dialog_state_out r).

Definition state_of (r : AssistResponse.t) : bytes :=
  DialogStateOut.conversation_state (AssistResponse.dialog_state_out r).

Definition json_of (r : AssistResponse.t) : string :=
  DeviceAction.device_request_json (AssistResponse.device_action r).

(** The non-empty audio buffers of a list of responses, in order. *)
Definition audio_chunks (rs : list AssistResponse.t) : list bytes :=
  filter nonempty (map audio_of rs).

(** The microphone mode of the last response that carries a directive,
    that is, a mode other than the unspecified one. *)
Fixpoint last_directive (rs : list AssistResponse.t)
  : option MicrophoneMode :=
  match rs with
  | [] => None
  | r :: rest =>
      match last_directive rest with
      | Some m => Some m
      | None =>
          match mode_of r with
          | MICROPHONE_MODE_UNSPECIFIED => None
          | m => Some m
          end
      end
  end.

(** The decision a list of responses leaves in [continue_conversation],
    starting from [b]. *)
Definition decided (rs : list AssistResponse.t) (b : bool) : bool :=
  match last_directive rs with
  | Some DIALOG_FOLLOW_ON => true
  | Some CLOSE_MICROPHONE => false
  | _ => b
  end.

Definition carries_follow_on (r : AssistResponse.t) : bool :=
  match mode_of r with DIALOG_FOLLOW_ON => true | _ => false end.

(** The last non-empty conversation state among the responses. *)
Fixpoint last_state (rs : list AssistResponse.t) : option bytes :=
  match rs with
  | [] => None
  | r :: rest =>
      match last_state rest with
      | Some t => Some t
      | None => if nonempty (state_of r) then Some (state_of r) else None
      end
  end.

Definition transient {A} (o : Outcome A) : bool :=
  match o with
  | Raised e => is_grpc_error_unavailable e
  | Returned _ => false
  end.

Section Vocabulary.

Variable loads : string -> option Json.value.
Variable device_handler : Json.value -> list Future.

(** The device request of the response is absent or decodes. *)
Definition parses (r : AssistResponse.t) : bool :=
  if truthy (json_of r) then
    match loads (json_of r) with Some _ => true | None => false end
  else true.

(** The steps up to and including the first response whose device
    request does not decode. *)
Fixpoint processed (ss : list Step) : list Step :=
  match ss with
  | [] => []
  | Pull :: rest => Pull :: processed rest
  | Deliver r :: rest =>
      if parses r then Deliver r :: processed rest else [Deliver r]
  end.

(** The RPC runs to the end of the response stream: every device
    request decodes and the response iterator does not raise. *)
Definition completes (rpc : Rpc) : bool :=
  forallb parses (delivered (steps rpc))
  && match status rpc with None => true | Some _ => false end.

(** The handles the device handler returns over a list of responses. *)
Definition pending (rs : list AssistResponse.t) : list Future :=
  flat_map
    (fun r =>
       if truthy (json_of r) then
         match loads (json_of r) with
         | Some device_request => device_handler device_request
         | None => []
         end
       else [])
    rs.

(** What [on_response] asks of the collaborators for one response,
    given whether the stream was playing and whether display is on. *)
Definition response_effects (resp : AssistResponse.t)
    (was_playing display_on : bool) : list Effect :=
  let shown :=
    if display_on
       && nonempty (ScreenOut.data (AssistResponse.screen_out resp))
    then [Displayed (ScreenOut.data (AssistResponse.screen_out resp))]
    else [] in
  (match AssistResponse.event_type resp with
   | END_OF_UTTERANCE => [Did_stop_recording]
   | EVENT_TYPE_UNSPECIFIED => []
   end)
  ++ (if nonempty (AssistResponse.speech_results resp)
      then [Logged_transcript
              (transcripts (AssistResponse.speech_results resp))]
      else [])
  ++ (if nonempty (audio_of resp)
      then (if was_playing then []
            else [Did_stop_recording; Did_start_playback])
           ++ [Did_write (audio_of resp)]
      else [])
  ++ (if (DialogStateOut.volume_percentage
            (AssistResponse.dialog_state_out resp) =? 0)%Z
      then []
      else [Did_set_volume
              (DialogStateOut.volume_percentage
                 (AssistResponse.dialog_state_out resp))])
  ++ (if truthy (json_of resp) then
        match loads (json_of resp) with
        | Some device_request => Handled device_request :: shown
        | None => []
        end
      else shown).

(** The stream after [on_response]. *)
Definition response_stream (resp : AssistResponse.t)
    (s : ConversationStream.t) : ConversationStream.t :=
  let s1 :=
    match AssistResponse.event_type resp with
    | END_OF_UTTERANCE => ConversationStream.stop_recording s
    | EVENT_TYPE_UNSPECIFIED => s
    end in
  let s2 :=
    if nonempty (audio_of resp) then
      ConversationStream.write (audio_of resp)
        (if ConversationStream.playing s1 then s1
         else ConversationStream.start_playback
                (ConversationStream.stop_recording s1))
    else s1 in
  if (DialogStateOut.volume_percentage
        (AssistResponse.dialog_state_out resp) =? 0)%Z
  then s2
  else ConversationStream.set_volume_percentage
         (DialogStateOut.volume_percentage
            (AssistResponse.dialog_state_out resp)) s2.

(** The world after [on_response]. *)
Definition response_world (resp : AssistResponse.t) (w : World) : World :=
  let a := self w in
  {| self :=
       {| language_code := language_code a;
          device_model_id := device_model_id a;
          device_id := device_id a;
          conversation_stream :=
            response_stream resp (conversation_stream a);
          display := display a;
          conversation_state :=
            if nonempty (state_of resp) then Some (state_of resp)
            else conversation_state a;
          is_new_conversation := is_new_conversation a |};
     trace :=
       trace w
       ++ response_effects resp
            (ConversationStream.playing (conversation_stream a))
            (display a);
     calls := calls w |}.

(** The frame after [on_response], or the exception it raises. *)
Definition response_frame (resp : AssistResponse.t) (l : Frame)
  : Outcome Frame :=
  let decided :=
    match mode_of resp with
    | DIALOG_FOLLOW_ON => true
    | CLOSE_MICROPHONE => false
    | MICROPHONE_MODE_UNSPECIFIED => continue_conversation l
    end in
  if truthy (json_of resp) then
    match loads (json_of resp) with
    | Some device_request =>
        Returned {| continue_conversation := decided;
                    device_actions_futures :=
                      device_actions_futures l
                      ++ device_handler device_request;
                    requests := requests l |}
    | None => Raised JSONDecodeError
    end
  else
    Returned {| continue_conversation := decided;
                device_actions_futures := device_actions_futures l;
                requests := requests l |}.

End Vocabulary.

(** RPCs and transports for concrete runs. *)

(** The scenario of the specification: end of utterance, audio, then
    the microphone is closed; the transport pulls two requests first. *)
Definition scenario_rpc : Rpc :=
  {| steps := [Pull; Pull;
               Deliver (Response.event END_OF_UTTERANCE);
               Deliver (Response.audio (bytes_of "AB"));
               Deliver (Response.dialog [] 0 CLOSE_MICROPHONE)];
     status := None |}.

(** A follow-on directive and a new conversation state. *)
Definition follow_on_rpc : Rpc :=
  {| steps := [Pull;
               Deliver (Response.dialog (bytes_of "tok") 0 DIALOG_FOLLOW_ON)];
     status := None |}.

(** A device request that is not JSON, then audio. *)
Definition malformed_rpc : Rpc :=
  {| steps := [Pull;
               Deliver (Response.device "{");
               Deliver (Response.audio (bytes_of "AB"))];
     status := None |}.

(** A device request that decodes. *)
Definition device_rpc : Rpc :=
  {| steps := [Pull; Deliver (Response.device "{}")];
     status := None |}.

(** The service is unavailable. *)
Definition unavailable_rpc : Rpc :=
  {| steps := [Pull]; status := Some (RpcError UNAVAILABLE) |}.

(** The credentials are rejected. *)
Definition unauthenticated_rpc : Rpc :=
  {| steps := [Pull]; status := Some (RpcError UNAUTHENTICATED) |}.

(** The generator and the world after the transport pulls once. *)
Definition pull_generator (g : Generator) (w : World) : Generator :=
  match g with
  | GenCreated => GenSuspended
  | GenSuspended =>
      match fst (ConversationStream.next (conversation_stream (self w))) with
      | Some _ => GenSuspended
      | None => GenFinished
      end
  | GenFinished => GenFinished
  end.

Definition pull_world (g : Generator) (w : World) : World :=
  match g with
  | GenCreated =>
      {| self := set_is_new_conversation false (self w);
         trace := trace w ++ [Yielded (Config (config_of (self w)))];
         calls := calls w |}
  | GenSuspended =>
      let next := ConversationStream.next (conversation_stream (self w)) in
      {| self := with_stream (fun _ => snd next) (self w);
         trace :=
           trace w ++ match fst next with
                      | Some data => [Yielded (AudioIn data)]
                      | None => []
                      end;
         calls := calls w |}
  | GenFinished => w
  end.

Definition with_requests (g : Generator) (l : Frame) : Frame :=
  {| continue_conversation := continue_conversation l;
     device_actions_futures := device_actions_futures l;
     requests := g |}.

Definition is_pull (s : Step) : bool :=
  match s with Pull => true | Deliver _ => false end.

(** A configuration first, audio after it. *)
Definition config_then_audio (rs : list AssistRequest) : bool :=
  match rs with
  | Config _ :: rest => forallb is_audio_in rest
  | _ => false
  end.

(** [n] requests taken off a generator, one after the other, with
    nothing happening in between. *)
Fixpoint take_requests (n : nat) (g : Generator) : M (list AssistRequest) :=
  match n with
  | O => ret []
  | S n' =>
      r <- gen_assist_requests g ;;
      rest <- take_requests n' (snd r) ;;
      ret (match fst r with Some c => c :: rest | None => rest end)
  end.

(** The stream is closed as often after as before. *)
Definition closed_same (w w' : World) : Prop :=
  ConversationStream.closed (conversation_stream (self w'))
  = ConversationStream.closed (conversation_stream (self w)).

(** Between [w] and [w'] the first configuration yielded, if any,
    carries the flag of [w], the later ones carry false, and the flag is
    false afterwards; with none yielded the flag is unchanged. *)
Definition flag_order (w w' : World) : Prop :=
  exists d,
    trace w' = trace w ++ d
    /\ match configs d with
       | [] => is_new_conversation (self w') = is_new_conversation (self w)
       | c :: rest =>
           is_new c = is_new_conversation (self w)
           /\ forallb (fun c' => negb (is_new c')) rest = true
           /\ is_new_conversation (self w') = false
       end.

(** Every run of [c] relates the world before to the world after. *)
Definition preserves {A} (R : World -> World -> Prop) (c : M A) : Prop :=
  forall w, R w (snd (c w)).

(** The frame [assist] starts with. *)
Definition frame0 : Frame :=
  {| continue_conversation := false;
     device_actions_futures := [];
     requests := GenCreated |}.

(** The world once [assist] has started recording and opened the RPC. *)
Definition attempt_start (w : World) : World :=
  {| self := with_stream ConversationStream.start_recording (self w);
     trace := trace w ++ [Did_start_recording];
     calls := S (calls w) |}.

(** What [assist] does after its loop, with frame [l]. *)
Definition closing_effects (l : Frame) : list Effect :=
  (if nonempty (device_actions_futures l)
   then [Waited (device_actions_futures l)] else [])
  ++ [Did_stop_playback].

Definition attempt_end (l : Frame) (w : World) : World :=
  {| self := with_stream ConversationStream.stop_playback (self w);
     trace := trace w ++ closing_effects l;
     calls := calls w |}.

Definition is_playing (w : World) : bool :=
  ConversationStream.playing (conversation_stream (self w)).

Definition is_recording (w : World) : bool :=
  ConversationStream.recording (conversation_stream (self w)).

Definition sink_of (w : World) : list bytes :=
  ConversationStream.sink (conversation_stream (self w)).

Definition closed_of (w : World) : nat :=
  ConversationStream.closed (conversation_stream (self w)).

(** The first configuration carries [flag], every later one false. *)
Definition first_then_false (flag : bool) (cs : list AssistConfig.t) : bool :=
  match cs with
  | [] => true
  | c :: rest =>
      Bool.eqb (is_new c) flag && forallb (fun c' => negb (is_new c')) rest
  end.

(** The input chunks a stream hands out from now on. *)
Definition available (w : World) : list bytes :=
  if is_recording w
  then ConversationStream.source (conversation_stream (self w))
  else [].

Definition starts_playback (e : Effect) : bool :=
  match e with Did_start_playback => true | _ => false end.


(** ** More vocabulary: what else one attempt does *)

Definition volume_of (r : AssistResponse.t) : Z :=
  DialogStateOut.volume_percentage (AssistResponse.dialog_state_out r).

Definition screen_of (r : AssistResponse.t) : bytes :=
  ScreenOut.data (AssistResponse.screen_out r).

(** The last volume other than zero among the responses. *)
Fixpoint last_volume (rs : list AssistResponse.t) : option Z :=
  match rs with
  | [] => None
  | r :: rest =>
      match last_volume rest with
      | Some v => Some v
      | None => if (volume_of r =? 0)%Z then None else Some (volume_of r)
      end
  end.

Definition volume_at (w : World) : Z :=
  ConversationStream.volume_percentage (conversation_stream (self w)).

Definition source_at (w : World) : list bytes :=
  ConversationStream.source (conversation_stream (self w)).

(** The transcripts logged, the payloads displayed and the device
    requests handed to the handler, in order. *)
Definition logged (t : list Effect) : list string :=
  flat_map (fun e => match e with Logged_transcript s => [s] | _ => [] end) t.

Definition displayed (t : list Effect) : list bytes :=
  flat_map (fun e => match e with Displayed d => [d] | _ => [] end) t.

Definition handled (t : list Effect) : list Json.value :=
  flat_map (fun e => match e with Handled v => [v] | _ => [] end) t.

(** The audio carried by a list of requests. *)
Definition audio_payloads (rs : list AssistRequest) : list bytes :=
  flat_map (fun r => match r with AudioIn b => [b] | Config _ => [] end) rs.

Definition is_start_recording (e : Effect) : bool :=
  match e with Did_start_recording => true | _ => false end.

Definition is_stop_playback (e : Effect) : bool :=
  match e with Did_stop_playback => true | _ => false end.

Definition is_wait (e : Effect) : bool :=
  match e with Waited _ => true | _ => false end.

Definition count {A} (p : A -> bool) (l : list A) : nat :=
  List.length (filter p l).

(** The non-empty audio buffers that the responses of RPC [k] carry up
    to the point where its loop ends. *)
Definition chunks_of (Assist : nat -> Rpc)
    (loads : string -> option Json.value) (k : nat) : list bytes :=
  audio_chunks
    (delivered
       (processed loads (steps (Assist k)))).

Definition volume_in (c : AssistConfig.t) : Z :=
  AudioOutConfig.volume_percentage (AssistConfig.audio_out_config c).

(** The joined transcripts of the responses that carry speech results. *)
Definition spoken (rs : list AssistResponse.t) : list string :=
  flat_map
    (fun r =>
       if nonempty (AssistResponse.speech_results r)
       then [transcripts (AssistResponse.speech_results r)] else [])
    rs.

(** The non-empty screen payloads of the responses. *)
Definition screens (rs : list AssistResponse.t) : list bytes :=
  filter nonempty (map screen_of rs).

(** The parts of [self] that the configuration copies and nothing in a
    turn assigns. *)
Definition identity_of (a : SampleAssistant)
  : string * string * string * Z * bool :=
  (language_code a, device_model_id a, device_id a,
   ConversationStream.sample_rate (conversation_stream a), display a).

(** The same parts, read off a configuration. *)
Definition identity_in (c : AssistConfig.t)
  : string * string * string * Z * bool :=
  (DialogStateIn.language_code (AssistConfig.dialog_state_in c),
   DeviceConfig.device_model_id (AssistConfig.device_config c),
   DeviceConfig.device_id (AssistConfig.device_config c),
   AudioOutConfig.sample_rate_hertz (AssistConfig.audio_out_config c),
   match ScreenOutConfig.screen_mode (AssistConfig.screen_out_config c) with
   | PLAYING => true
   | _ => false
   end).

Definition linear16 (c : AssistConfig.t) : bool :=
  match AudioInConfig.encoding (AssistConfig.audio_in_config c),
        AudioOutConfig.encoding (AssistConfig.audio_out_config c) with
  | LINEAR16, LINEAR16 => true
  | _, _ => false
  end.

(** Between [w] and [w'] the identity of [self] is kept and every
    configuration yielded carries it. *)
Definition identity_kept (w w' : World) : Prop :=
  exists d,
    trace w' = trace w ++ d
    /\ identity_of (self w') = identity_of (self w)
    /\ Forall (fun c => identity_in c = identity_of (self w)
                        /\ AudioInConfig.sample_rate_hertz
                             (AssistConfig.audio_in_config c)
                           = ConversationStream.sample_rate
                               (conversation_stream (self w))
                        /\ linear16 c = true)
              (configs d).

Section MoreVocabulary.

Variable loads : string -> option Json.value.

(** The steps before the first response whose device request does not
    decode: the ones [on_response] runs to its end. *)
Fixpoint survived (ss : list Step) : list Step :=
  match ss with
  | [] => []
  | Pull :: rest => Pull :: survived rest
  | Deliver r :: rest =>
      if parses loads r then Deliver r :: survived rest else []
  end.

(** The device requests that decode, decoded. *)
Definition decoded (rs : list AssistResponse.t) : list Json.value :=
  flat_map
    (fun r =>
       if truthy (json_of r) then
         match loads (json_of r) with
         | Some device_request => [device_request]
         | None => []
         end
       else [])
    rs.

End MoreVocabulary.

(** * The device handlers and the set-up of [main] *)

(** ** The humidity handler ([humidity] in [main]) *)

(** What the handler says through [synthesize_text]: the humidity, or
    that reading it timed out. *)
Inductive Report :=
| Said_humidity (humidity : Z)
| Said_humidity_timeout.

(** The outside of the handler: the calls of [dht11.read_dht11_dat] made
    so far, the calls of [time.sleep(0.5)], the loop indices logged as
    skipped, and what was said. *)
Record Bench := {
  reads : nat;
  sleeps : nat;
  skipped : list nat;
  said : list Report }.

Section Humidity.

(** [GPIO_FLAG]: whether the sensor modules could be imported. *)
Variable GPIO_FLAG : bool.

(** [dht11.read_dht11_dat], by the number of the call: a pair of
    humidity and temperature, or [None] for its false result. *)
Variable read_dht11_dat : nat -> option (Z * Z).

(** One reading, as the loop body takes it. *)
Definition humidity_reading (b : Bench) : option (Z * Z) * Bench :=
  if GPIO_FLAG then
    (read_dht11_dat (reads b),
     {| reads := S (reads b); sleeps := sleeps b;
        skipped := skipped b; said := said b |})
  else (Some (0, 0)%Z, b).

(** [for i in range(20)] from index [i] on, with [remaining] rounds to
    go: the result left in [result] when the loop ends. *)
Fixpoint humidity_poll (remaining i : nat) (b : Bench)
  : option (Z * Z) * Bench :=
  match remaining with
  | O => (None, b)
  | S remaining' =>
      let (result, b1) := humidity_reading b in
      match result with
      | Some _ => (result, b1)
      | None =>
          humidity_poll remaining' (S i)
            {| reads := reads b1; sleeps := S (sleeps b1);
               skipped := skipped b1 ++ [i]; said := said b1 |}
      end
  end.

Definition humidity (b : Bench) : Bench :=
  let (result, b1) := humidity_poll 20 0 b in
  {| reads := reads b1; sleeps := sleeps b1; skipped := skipped b1;
     said := said b1
             ++ [match result with
                 | Some (humidity, _) => Said_humidity humidity
                 | None => Said_humidity_timeout
                 end] |}.

End Humidity.

(** ** The audio source and sink of [main] *)

Inductive AudioEnd :=
| WaveSource (path : string)
| WaveSink (path : string)
| SoundDeviceStream (number : nat).

(** How the set-up ends: with a source and a sink, or with the exception
    of an [open] that failed; and the sound devices created on the way. *)
Record AudioSetup := {
  ends : option (AudioEnd * AudioEnd);
  devices : nat }.

Section Audio.

(** Whether [open] succeeds on a path. *)
Variable can_open : string -> bool.

(** [audio_device or SoundDeviceStream(...)]: the device there is, or a
    new one. *)
Definition device_or_new (audio_device : option nat) (created : nat)
  : nat * nat :=
  match audio_device with
  | Some d => (d, created)
  | None => (created, S created)
  end.

(** An option that was not given is the empty string here: both are
    false to [if]. *)
Definition configure_audio (input_audio_file output_audio_file : string)
  : AudioSetup :=
  let audio_device : option nat := None in
  let created := 0 in
  if truthy input_audio_file then
    if can_open input_audio_file then
      let audio_source := WaveSource input_audio_file in
      if truthy output_audio_file then
        if can_open output_audio_file then
          {| ends := Some (audio_source, WaveSink output_audio_file);
             devices := created |}
        else {| ends := None; devices := created |}
      else
        let (d, created') := device_or_new audio_device created in
        {| ends := Some (audio_source, SoundDeviceStream d);
           devices := created' |}
    else {| ends := None; devices := created |}
  else
    let (d, created1) := device_or_new audio_device created in
    let audio_source := SoundDeviceStream d in
    let audio_device := Some d in
    if truthy output_audio_file then
      if can_open output_audio_file then
        {| ends := Some (audio_source, WaveSink output_audio_file);
           devices := created1 |}
      else {| ends := None; devices := created1 |}
    else
      let (d', created2) := device_or_new audio_device created1 in
      {| ends := Some (audio_source, SoundDeviceStream d');
         devices := created2 |}.

End Audio.

(** ** Device configuration files *)

(** A JSON object with string values, as both programs write it: an
    association list read by key. *)
Definition dict := list (string * string).

Fixpoint lookup (key : string) (d : dict) : option string :=
  match d with
  | [] => None
  | (k, v) :: rest => if String.eqb k key then Some v else lookup key rest
  end.

(** ** The device of [main] (the gRPC sample) *)

Module Pushtotalk.

(** How the set-up ends: [main] goes on with a device id and a model id,
    leaves through [sys.exit], or is left by an exception. *)
Inductive Ending :=
| Ready (device_id device_model_id : string)
| Exit (code : Z)
| Raises.

(** The ending, the POSTs made (URL and payload) and what was written
    to the configuration file, if anything. *)
Record Setup := {
  ending : Ending;
  posts : list (string * dict);
  saved : option dict }.

Section DeviceSetup.

(** [str(uuid.uuid1())]. *)
Variable uuid1 : string.

(** The status code of [session.post], [None] when it raises. *)
Variable post : string -> dict -> option Z.

(** Whether the configuration file can be created and written. *)
Variable writable : bool.

(** The [except] branch: register a new device instance. *)
Definition register (api_endpoint project_id device_model_id : string)
  : Setup :=
  if negb (truthy device_model_id) then
    {| ending := Exit (-1); posts := []; saved := None |}
  else if negb (truthy project_id) then
    {| ending := Exit (-1); posts := []; saved := None |}
  else
    let device_base_url :=
      ("https://" ++ api_endpoint ++ "/v1alpha2/projects/" ++ project_id
       ++ "/devices")%string in
    let device_id := uuid1 in
    let payload :=
      [("id", device_id); ("model_id", device_model_id);
       ("client_type", "SDK_SERVICE")] in
    match post device_base_url payload with
    | None =>
        {| ending := Raises; posts := [(device_base_url, payload)];
           saved := None |}
    | Some status_code =>
        if negb (status_code =? 200)%Z then
          {| ending := Exit (-1); posts := [(device_base_url, payload)];
             saved := None |}
        else if writable then
          {| ending := Ready device_id device_model_id;
             posts := [(device_base_url, payload)];
             saved := Some payload |}
        else
          {| ending := Raises; posts := [(device_base_url, payload)];
             saved := None |}
    end.

(** [device_config] is the object in the configuration file, [None]
    when the file cannot be opened or does not decode.  An option that
    was not given is the empty string. *)
Definition device_setup
    (api_endpoint project_id device_id device_model_id : string)
    (device_config : option dict) : Setup :=
  if negb (truthy device_id) || negb (truthy device_model_id) then
    match device_config with
    | Some device =>
        match lookup "id" device, lookup "model_id" device with
        | Some id, Some model_id =>
            {| ending := Ready id model_id; posts := []; saved := None |}
        | _, _ => register api_endpoint project_id device_model_id
        end
    | None => register api_endpoint project_id device_model_id
    end
  else
    {| ending := Ready device_id device_model_id; posts := [];
       saved := None |}.

End DeviceSetup.

(** The object in the configuration file after a run. *)
Definition config_after (device_config : option dict) (r : Setup)
  : option dict :=
  match saved r with
  | Some d => Some d
  | None => device_config
  end.

End Pushtotalk.

(** ** The device of [main] (the library sample, [hotword.py]) *)

Module Hotword.

(** The configuration file: not there, there but not an object that
    decodes, or an object. *)
Inductive ConfigFile :=
| NotFound
| Unreadable
| Holds (device_config : dict).

(** How the set-up ends: with the exception for the missing option,
    with another exception, or with the assistant started under a model
    id. *)
Inductive Ending :=
| Missing_option
| Raises
| Started (device_model_id : string).

(** The ending, the calls of [register_device] (project id, model id,
    device id, nickname), whether the warning was printed and what was
    written to the configuration file, if anything. *)
Record Setup := {
  ending : Ending;
  registrations : list (string * string * string * string);
  warned : bool;
  saved : option dict }.

(** What the [try] block leaves in [device_model_id] and
    [last_device_id], or [None] when an exception other than
    [FileNotFoundError] leaves it. *)
Definition load_config (file : ConfigFile)
  : option (option string * option string) :=
  match file with
  | NotFound => Some (None, None)
  | Unreadable => None
  | Holds device_config =>
      match lookup "model_id" device_config with
      | Some device_model_id =>
          Some (Some device_model_id, lookup "last_device_id" device_config)
      | None => None
      end
  end.

Definition truthy_option (s : option string) : bool :=
  match s with Some v => truthy v | None => false end.

Definition differs (a : string) (b : option string) : bool :=
  match b with Some v => negb (String.eqb a v) | None => true end.

(** [main] from the device configuration up to its event loop.
    [device_id] is the id the started assistant reports and [writable]
    tells whether the configuration file can be created and written;
    [register_device] and the start of the assistant are taken to
    return.  An option that was not given is the empty string. *)
Definition main_setup (writable : bool)
    (args_device_model_id args_project_id args_nickname : string)
    (file : ConfigFile) (device_id : string) : Setup :=
  match load_config file with
  | None =>
      {| ending := Raises; registrations := []; warned := false;
         saved := None |}
  | Some (device_model_id, last_device_id) =>
      if negb (truthy args_device_model_id)
         && negb (truthy_option device_model_id) then
        {| ending := Missing_option; registrations := []; warned := false;
           saved := None |}
      else
        let should_register :=
          truthy args_device_model_id
          && differs args_device_model_id device_model_id in
        let device_model_id :=
          if truthy args_device_model_id then args_device_model_id
          else match device_model_id with Some v => v | None => "" end in
        if should_register || differs device_id last_device_id then
          if truthy args_project_id then
            if writable then
              {| ending := Started device_model_id;
                 registrations :=
                   [(args_project_id, device_model_id, device_id,
                     args_nickname)];
                 warned := false;
                 saved := Some [("last_device_id", device_id);
                                ("model_id", device_model_id)] |}
            else
              {| ending := Raises;
                 registrations :=
                   [(args_project_id, device_model_id, device_id,
                     args_nickname)];
                 warned := false;
                 saved := None |}
          else
            {| ending := Started device_model_id; registrations := [];
               warned := true; saved := None |}
        else
          {| ending := Started device_model_id; registrations := [];
             warned := false; saved := None |}
  end.

(** The configuration file after a run. *)
Definition file_after (file : ConfigFile) (r : Setup) : ConfigFile :=
  match saved r with
  | Some d => Holds d
  | None => file
  end.

End Hotword.

(** ** The hot-word callback of [main] *)





Section Callback.

Variable GPIO_FLAG : bool.
Variable Assist : nat -> Rpc.
Variable loads : string -> option Json.value.
Variable device_handler : Json.value -> list Future.


End Callback.

(** ** Inputs for concrete runs *)

(** Audio arrives, then the credentials are rejected. *)
Definition interrupted_rpc : Rpc :=
  {| steps := [Pull; Deliver (Response.audio (bytes_of "AB"))];
     status := Some (RpcError UNAUTHENTICATED) |}.

(** A bench on which nothing has happened yet. *)
Definition empty_bench : Bench :=
  {| reads := 0; sleeps := 0; skipped := []; said := [] |}.

(** A sensor whose first two readings are bad. *)
Definition slow_sensor (n : nat) : option (Z * Z) :=
  if (n <? 2)%nat then None else Some (40, 25)%Z.

(** A sensor that never gives a reading. *)
Definition dead_sensor (_ : nat) : option (Z * Z) := None.

(** A registration service that accepts every request. *)
Definition accepting (_ : string) (_ : dict) : option Z := Some 200%Z.

(** A configuration file of the gRPC sample. *)
Definition stored_device : dict :=
  [("id", "stored-id"); ("model_id", "stored-model");
   ("client_type", "SDK_SERVICE")].



(** * Properties *)

(** ** One response *)

Section ResponseFacts.

Variable Assist : nat -> Rpc.
Variable loads : string -> option Json.value.
Variable device_handler : Json.value -> list Future.

(** [on_response] computes [response_frame] and [response_world]. *)
Lemma on_response_eq (resp : AssistResponse.t) (l : Frame) (w : World) :
  on_response loads device_handler resp l w
  = (response_frame loads device_handler resp l,
     response_world loads resp w).
Proof.
  destruct w as [[lc dm di [m sr vp src snk cl] dsp cs inc] tr n].
  destruct resp as [ev sp [ad] [tok vol mm] [js] [sd]].
  unfold on_response, response_frame, response_world, response_effects,
    response_stream, when, bind, ret, raise, get, emit, update_self,
    stop_recording, start_playback, write, set_volume_percentage,
    audio_of, mode_of, state_of, json_of.
  cbn.
  destruct ev, (nonempty sp), ad, m, (nonempty tok), (vol =? 0)%Z,
    (truthy js), (loads js), dsp, (nonempty sd);
    cbn; rewrite <- ?app_assoc; cbn; rewrite ?app_nil_r; reflexivity.
Qed.

End ResponseFacts.

(** ** Lifting a relation on worlds through the control flow *)

Section Preservation.

Variable R : World -> World -> Prop.
Hypothesis R_refl : forall w, R w w.
Hypothesis R_trans : forall a b c, R a b -> R b c -> R a c.

Lemma preserves_ret {A} (a : A) : preserves R (ret a).
Proof. intro w. apply R_refl. Qed.

Lemma preserves_raise {A} (e : Exception) : preserves R (@raise A e).
Proof. intro w. apply R_refl. Qed.

Lemma preserves_get : preserves R get.
Proof. intro w. apply R_refl. Qed.

Lemma preserves_bind {A B} (c : M A) (k : A -> M B) :
  preserves R c -> (forall a, preserves R (k a)) -> preserves R (bind c k).
Proof.
  intros Hc Hk w. unfold bind.
  specialize (Hc w). destruct (c w) as [[a | e] w1]; cbn in *.
  - eapply R_trans; [exact Hc | apply Hk].
  - exact Hc.
Qed.

Lemma preserves_when (b : bool) (c : M unit) :
  preserves R c -> preserves R (when b c).
Proof. destruct b; cbn; auto using preserves_ret. Qed.

Variable Assist : nat -> Rpc.
Variable loads : string -> option Json.value.
Variable device_handler : Json.value -> list Future.

Hypothesis R_step : forall s l, preserves R (step loads device_handler s l).
Hypothesis R_start_recording : preserves R start_recording.
Hypothesis R_next_call : preserves R (next_call Assist).
Hypothesis R_waited : forall fs, preserves R (emit (Waited fs)).
Hypothesis R_stop_playback : preserves R stop_playback.

Lemma preserves_run (ss : list Step) :
  forall l, preserves R (run loads device_handler ss l).
Proof.
  induction ss as [| s ss IH]; intro l; cbn.
  - apply preserves_ret.
  - apply preserves_bind; auto.
Qed.

Lemma preserves_assist_once :
  preserves R (assist_once Assist loads device_handler).
Proof.
  unfold assist_once.
  apply preserves_bind; [assumption | intros _].
  apply preserves_bind; [assumption | intros rpc].
  apply preserves_bind; [apply preserves_run | intros l].
  destruct (status rpc).
  - apply preserves_raise.
  - apply preserves_bind; [apply preserves_when; auto | intros _].
    apply preserves_bind; [assumption | intros _].
    apply preserves_ret.
Qed.

Lemma preserves_retrying {A} (reraise : bool) (p : Exception -> bool)
    (fn : M A) :
  preserves R fn ->
  forall remaining, preserves R (retrying reraise p remaining fn).
Proof.
  intros Hfn remaining.
  induction remaining as [| k IH]; intro w; cbn;
    specialize (Hfn w); destruct (fn w) as [[a | e] w1]; cbn in *;
    try assumption.
  - destruct (p e), reraise; assumption.
  - destruct (p e); [| assumption].
    eapply R_trans; [exact Hfn | apply IH].
Qed.

Lemma preserves_assist : preserves R (assist Assist loads device_handler).
Proof. apply preserves_retrying, preserves_assist_once. Qed.

Lemma preserves_turns (n : nat) :
  preserves R (turns Assist loads device_handler n).
Proof.
  induction n as [| n IH]; cbn.
  - apply preserves_ret.
  - apply preserves_bind; [apply preserves_assist | intros _; exact IH].
Qed.

End Preservation.

(** ** Pulling a request *)

Lemma iter_log_assist_requests_eq (g : Generator) (w : World) :
  iter_log_assist_requests g w = (Returned (pull_generator g w), pull_world g w).
Proof.
  destruct g; cbn; try reflexivity.
  unfold iter_log_assist_requests, gen_assist_requests, bind, get; cbn.
  unfold pull_generator, pull_world.
  destruct (ConversationStream.next (conversation_stream (self w)))
    as [[data |] s'] eqn:E; cbn.
  - reflexivity.
  - rewrite app_nil_r. destruct w; reflexivity.
Qed.

(** ** Reading the trace *)

Lemma since_app (w w' : World) (d : list Effect) :
  trace w' = trace w ++ d -> since w w' = d.
Proof.
  intro H. unfold since. rewrite H.
  rewrite skipn_app, skipn_all, Nat.sub_diag. reflexivity.
Qed.

Lemma yielded_app (a b : list Effect) :
  yielded (a ++ b) = yielded a ++ yielded b.
Proof. apply flat_map_app. Qed.

Lemma written_app (a b : list Effect) :
  written (a ++ b) = written a ++ written b.
Proof. apply flat_map_app. Qed.

Lemma configs_app (a b : list Effect) :
  configs (a ++ b) = configs a ++ configs b.
Proof. unfold configs. rewrite yielded_app. apply flat_map_app. Qed.

Lemma delivered_app (a b : list Step) :
  delivered (a ++ b) = delivered a ++ delivered b.
Proof. apply flat_map_app. Qed.

Lemma last_directive_specified (rs : list AssistResponse.t) :
  last_directive rs <> Some MICROPHONE_MODE_UNSPECIFIED.
Proof.
  induction rs as [| r rs IH]; cbn; [discriminate |].
  destruct (last_directive rs) as [m |]; [exact IH |].
  destruct (mode_of r); discriminate.
Qed.

Section StepFacts.

Variable loads : string -> option Json.value.
Variable device_handler : Json.value -> list Future.

Ltac split_response resp :=
  destruct resp as [ev sp [ad] [tok vol mm] [js] [sd]];
  unfold response_effects, response_stream, audio_of, json_of; cbn;
  destruct ev, (nonempty sp), ad, (vol =? 0)%Z, (truthy js), (loads js),
    (nonempty sd); cbn.

Lemma response_effects_yielded resp p d :
  yielded (response_effects loads resp p d) = [].
Proof. split_response resp; destruct p, d; reflexivity. Qed.

Lemma response_effects_written resp p d :
  written (response_effects loads resp p d)
  = if nonempty (audio_of resp) then [audio_of resp] else [].
Proof. split_response resp; destruct p, d; reflexivity. Qed.

Lemma response_effects_no_close resp p d :
  ~ In Did_close (response_effects loads resp p d).
Proof.
  split_response resp; destruct p, d; cbn; intuition discriminate.
Qed.

Ltac split_stream resp :=
  destruct resp as [ev sp [ad] [tok vol mm] [js] [sd]];
  unfold response_stream, audio_of; cbn;
  destruct ev, ad, (vol =? 0)%Z; cbn.

Lemma response_stream_sink resp s :
  ConversationStream.sink (response_stream resp s)
  = ConversationStream.sink s
    ++ (if nonempty (audio_of resp) then [audio_of resp] else []).
Proof.
  destruct s as [m sr vp src snk cl].
  split_stream resp; destruct m; cbn; rewrite ?app_nil_r; reflexivity.
Qed.

Lemma response_stream_closed resp s :
  ConversationStream.closed (response_stream resp s)
  = ConversationStream.closed s.
Proof.
  destruct s as [m sr vp src snk cl].
  split_stream resp; destruct m; reflexivity.
Qed.

(** *** The equations of [run] *)

Lemma run_pull ss l w :
  run loads device_handler (Pull :: ss) l w
  = run loads device_handler ss
      (with_requests (pull_generator (requests l) w) l)
      (pull_world (requests l) w).
Proof.
  cbn. unfold bind at 1. unfold bind at 1.
  rewrite iter_log_assist_requests_eq. reflexivity.
Qed.

Lemma run_deliver resp ss l w :
  run loads device_handler (Deliver resp :: ss) l w
  = match response_frame loads device_handler resp l with
    | Returned l' =>
        run loads device_handler ss l' (response_world loads resp w)
    | Raised e => (Raised e, response_world loads resp w)
    end.
Proof.
  cbn. unfold bind at 1. rewrite on_response_eq. reflexivity.
Qed.

Lemma response_frame_parses resp l :
  parses loads resp = true ->
  exists l',
    response_frame loads device_handler resp l = Returned l'
    /\ continue_conversation l'
       = match mode_of resp with
         | DIALOG_FOLLOW_ON => true
         | CLOSE_MICROPHONE => false
         | MICROPHONE_MODE_UNSPECIFIED => continue_conversation l
         end
    /\ device_actions_futures l'
       = device_actions_futures l ++ pending loads device_handler [resp]
    /\ requests l' = requests l.
Proof.
  unfold parses, response_frame, pending. cbn.
  destruct (truthy (json_of resp)).
  - destruct (loads (json_of resp)); [| discriminate].
    intros _. eexists. split; [reflexivity |]. cbn.
    rewrite app_nil_r. auto.
  - intros _. eexists. split; [reflexivity |]. cbn.
    rewrite app_nil_r. auto.
Qed.

Lemma response_frame_fails resp l :
  parses loads resp = false ->
  response_frame loads device_handler resp l = Raised JSONDecodeError.
Proof.
  unfold parses, response_frame.
  destruct (truthy (json_of resp)); [| discriminate].
  destruct (loads (json_of resp)); [discriminate | reflexivity].
Qed.

(** *** What [run] returns *)

Lemma pending_app a b :
  pending loads device_handler (a ++ b)
  = pending loads device_handler a ++ pending loads device_handler b.
Proof. apply flat_map_app. Qed.

Lemma run_returns ss :
  forall l w,
    forallb (parses loads) (delivered ss) = true ->
    exists l',
      fst (run loads device_handler ss l w) = Returned l'
      /\ continue_conversation l'
         = decided (delivered ss) (continue_conversation l)
      /\ device_actions_futures l'
         = device_actions_futures l
           ++ pending loads device_handler (delivered ss).
Proof.
  induction ss as [| [| resp] ss IH]; intros l w Hall.
  - exists l. cbn. rewrite app_nil_r. auto.
  - rewrite run_pull. cbn in Hall.
    destruct (IH (with_requests (pull_generator (requests l) w) l)
                 (pull_world (requests l) w) Hall)
      as (l' & Hr & Hc & Hf).
    exists l'. auto.
  - rewrite run_deliver. cbn in Hall.
    apply andb_true_iff in Hall as [Hp Hall].
    destruct (response_frame_parses resp l Hp) as (l1 & E & Hc1 & Hf1 & _).
    rewrite E.
    destruct (IH l1 (response_world loads resp w) Hall)
      as (l' & Hr & Hc & Hf).
    exists l'. split; [exact Hr |]. split.
    + rewrite Hc, Hc1. unfold decided.
      change (delivered (Deliver resp :: ss)) with (resp :: delivered ss).
      cbn [last_directive].
      destruct (last_directive (delivered ss)) as [m |] eqn:Hl.
      * destruct m; try reflexivity.
        exfalso. exact (last_directive_specified _ Hl).
      * destruct (mode_of resp); reflexivity.
    + rewrite Hf, Hf1. change (delivered (Deliver resp :: ss))
        with ([resp] ++ delivered ss).
      rewrite pending_app, app_assoc. reflexivity.
Qed.

Lemma run_raises ss :
  forall l w,
    forallb (parses loads) (delivered ss) = false ->
    fst (run loads device_handler ss l w) = Raised JSONDecodeError.
Proof.
  induction ss as [| [| resp] ss IH]; intros l w Hall.
  - discriminate.
  - rewrite run_pull. apply IH. exact Hall.
  - rewrite run_deliver. cbn in Hall.
    destruct (parses loads resp) eqn:Hp.
    + destruct (response_frame_parses resp l Hp) as (l1 & E & _).
      rewrite E. apply IH. exact Hall.
    + rewrite (response_frame_fails resp l Hp). reflexivity.
Qed.

(** The steps after a device request that does not decode are not
    run. *)
Lemma run_processed ss :
  forall l w,
    run loads device_handler ss l w
    = run loads device_handler (processed loads ss) l w.
Proof.
  induction ss as [| [| resp] ss IH]; intros l w.
  - reflexivity.
  - cbn [processed]. rewrite !run_pull. apply IH.
  - cbn [processed]. destruct (parses loads resp) eqn:Hp.
    + rewrite !run_deliver.
      destruct (response_frame loads device_handler resp l);
        [apply IH | reflexivity].
    + rewrite !run_deliver, (response_frame_fails resp l Hp).
      reflexivity.
Qed.

End StepFacts.

(** ** The world after the steps of an RPC *)

Lemma audio_chunks_cons (r : AssistResponse.t) (rs : list AssistResponse.t) :
  audio_chunks (r :: rs)
  = (if nonempty (audio_of r) then [audio_of r] else []) ++ audio_chunks rs.
Proof.
  unfold audio_chunks. cbn. destruct (nonempty (audio_of r)); reflexivity.
Qed.

Lemma next_sink (s : ConversationStream.t) :
  ConversationStream.sink (snd (ConversationStream.next s))
  = ConversationStream.sink s.
Proof.
  unfold ConversationStream.next.
  destruct (ConversationStream.recording s); [| reflexivity].
  destruct (ConversationStream.source s); reflexivity.
Qed.

Lemma next_closed (s : ConversationStream.t) :
  ConversationStream.closed (snd (ConversationStream.next s))
  = ConversationStream.closed s.
Proof.
  unfold ConversationStream.next.
  destruct (ConversationStream.recording s); [| reflexivity].
  destruct (ConversationStream.source s); reflexivity.
Qed.

Lemma pull_world_sink (g : Generator) (w : World) :
  ConversationStream.sink (conversation_stream (self (pull_world g w)))
  = ConversationStream.sink (conversation_stream (self w)).
Proof. destruct g; cbn; auto using next_sink. Qed.

Lemma pull_world_closed (g : Generator) (w : World) :
  ConversationStream.closed (conversation_stream (self (pull_world g w)))
  = ConversationStream.closed (conversation_stream (self w)).
Proof. destruct g; cbn; auto using next_closed. Qed.

Lemma pull_world_state (g : Generator) (w : World) :
  conversation_state (self (pull_world g w)) = conversation_state (self w).
Proof. destruct g; reflexivity. Qed.

Lemma pull_world_calls (g : Generator) (w : World) :
  calls (pull_world g w) = calls w.
Proof. destruct g; reflexivity. Qed.

(** What one pull adds to the trace. *)
Lemma pull_world_trace (g : Generator) (w : World) :
  exists d,
    trace (pull_world g w) = trace w ++ d
    /\ written d = []
    /\ match g with
       | GenCreated => yielded d = [Config (config_of (self w))]
       | _ => forallb is_audio_in (yielded d) = true
       end.
Proof.
  destruct g; cbn.
  - eexists. repeat split.
  - destruct (fst (ConversationStream.next (conversation_stream (self w))));
      eexists; repeat split.
  - exists []. rewrite app_nil_r. repeat split.
Qed.

Lemma pull_generator_started (g : Generator) (w : World) :
  pull_generator g w <> GenCreated.
Proof.
  destruct g; cbn; try discriminate.
  destruct (fst (ConversationStream.next (conversation_stream (self w))));
    discriminate.
Qed.

Section RunFacts.

Variable loads : string -> option Json.value.
Variable device_handler : Json.value -> list Future.

(** The sink receives the non-empty audio of the processed responses,
    in their order. *)
Lemma run_sink ss :
  forall l w,
    ConversationStream.sink (conversation_stream (self (snd (run loads device_handler ss l w))))
    = ConversationStream.sink (conversation_stream (self w))
      ++ audio_chunks (delivered (processed loads ss)).
Proof.
  induction ss as [| [| resp] ss IH]; intros l w.
  - cbn. rewrite app_nil_r. reflexivity.
  - rewrite run_pull. cbn [processed]. rewrite IH, pull_world_sink.
    reflexivity.
  - rewrite run_deliver. cbn [processed].
    destruct (parses loads resp) eqn:Hp.
    + destruct (response_frame_parses loads device_handler resp l Hp)
        as (l1 & E & _).
      rewrite E, IH.
      change (delivered (Deliver resp :: processed loads ss))
        with (resp :: delivered (processed loads ss)).
      rewrite audio_chunks_cons, app_assoc. f_equal.
      cbn. apply response_stream_sink.
    + rewrite (response_frame_fails loads device_handler resp l Hp).
      change (delivered [Deliver resp]) with [resp].
      rewrite audio_chunks_cons. cbn [audio_chunks filter map].
      rewrite app_nil_r. cbn. apply response_stream_sink.
Qed.

(** The conversation state is the last non-empty one received. *)
Lemma run_conversation_state ss :
  forall l w,
    conversation_state (self (snd (run loads device_handler ss l w)))
    = match last_state (delivered (processed loads ss)) with
      | Some t => Some t
      | None => conversation_state (self w)
      end.
Proof.
  induction ss as [| [| resp] ss IH]; intros l w.
  - reflexivity.
  - rewrite run_pull. cbn [processed]. rewrite IH, pull_world_state.
    reflexivity.
  - rewrite run_deliver. cbn [processed].
    destruct (parses loads resp) eqn:Hp.
    + destruct (response_frame_parses loads device_handler resp l Hp)
        as (l1 & E & _).
      rewrite E, IH.
      change (delivered (Deliver resp :: processed loads ss))
        with (resp :: delivered (processed loads ss)).
      cbn [last_state].
      destruct (last_state (delivered (processed loads ss)));
        [reflexivity |].
      cbn. destruct (nonempty (state_of resp)); reflexivity.
    + rewrite (response_frame_fails loads device_handler resp l Hp).
      cbn. destruct (nonempty (state_of resp)); reflexivity.
Qed.

(** The trace grows by the writes of the processed responses, and by
    requests in generator order: the configuration on the first pull
    of a fresh generator, audio on every later one. *)
Lemma run_trace ss :
  forall l w,
    exists d,
      trace (snd (run loads device_handler ss l w)) = trace w ++ d
      /\ written d = audio_chunks (delivered (processed loads ss))
      /\ match requests l with
         | GenCreated =>
             if existsb is_pull (processed loads ss)
             then config_then_audio (yielded d) = true
             else yielded d = []
         | _ => forallb is_audio_in (yielded d) = true
         end.
Proof.
  induction ss as [| [| resp] ss IH]; intros l w.
  - exists []. cbn. rewrite app_nil_r. destruct (requests l); auto.
  - rewrite run_pull. cbn [processed existsb is_pull orb].
    destruct (pull_world_trace (requests l) w) as (d1 & T1 & W1 & Y1).
    destruct (IH (with_requests (pull_generator (requests l) w) l)
                 (pull_world (requests l) w)) as (d2 & T2 & W2 & Y2).
    exists (d1 ++ d2). rewrite T2, T1, app_assoc. split; [reflexivity |].
    rewrite written_app, W1, W2, yielded_app.
    split; [reflexivity |].
    cbn [requests with_requests] in Y2.
    assert (A2 : forallb is_audio_in (yielded d2) = true).
    { pose proof (pull_generator_started (requests l) w) as N.
      destruct (pull_generator (requests l) w);
        [contradiction | exact Y2 | exact Y2]. }
    destruct (requests l).
    + rewrite Y1. exact A2.
    + rewrite forallb_app, Y1. exact A2.
    + rewrite forallb_app, Y1. exact A2.
  - rewrite run_deliver. cbn [processed].
    destruct (parses loads resp) eqn:Hp.
    + destruct (response_frame_parses loads device_handler resp l Hp)
        as (l1 & E & _ & _ & G).
      rewrite E.
      destruct (IH l1 (response_world loads resp w)) as (d2 & T2 & W2 & Y2).
      eexists. rewrite T2. cbn [response_world trace].
      rewrite <- app_assoc. split; [reflexivity |].
      rewrite written_app, yielded_app, W2.
      rewrite response_effects_written, response_effects_yielded.
      change (delivered (Deliver resp :: processed loads ss))
        with (resp :: delivered (processed loads ss)).
      rewrite audio_chunks_cons. split; [reflexivity |].
      rewrite G in Y2. exact Y2.
    + rewrite (response_frame_fails loads device_handler resp l Hp).
      eexists. cbn [snd response_world trace]. split; [reflexivity |].
      rewrite response_effects_written, response_effects_yielded.
      change (delivered [Deliver resp]) with [resp].
      rewrite audio_chunks_cons. cbn [audio_chunks filter map].
      rewrite app_nil_r. split; [reflexivity |].
      destruct (requests l); reflexivity.
Qed.

Lemma run_calls ss :
  forall l w, calls (snd (run loads device_handler ss l w)) = calls w.
Proof.
  induction ss as [| [| resp] ss IH]; intros l w.
  - reflexivity.
  - rewrite run_pull, IH. apply pull_world_calls.
  - rewrite run_deliver.
    destruct (response_frame loads device_handler resp l);
      [rewrite IH |]; reflexivity.
Qed.

End RunFacts.

(** ** One attempt *)

Section AttemptFacts.

Variable Assist : nat -> Rpc.
Variable loads : string -> option Json.value.
Variable device_handler : Json.value -> list Future.

Lemma assist_once_eq (w : World) :
  assist_once Assist loads device_handler w
  = let rpc := Assist (calls w) in
    match run loads device_handler (steps rpc) frame0 (attempt_start w) with
    | (Returned l, w1) =>
        match status rpc with
        | Some e => (Raised e, w1)
        | None => (Returned (continue_conversation l), attempt_end l w1)
        end
    | (Raised e, w1) => (Raised e, w1)
    end.
Proof.
  unfold assist_once, start_recording, next_call.
  unfold bind, update_self, emit. cbn [self trace calls fst snd].
  fold frame0. fold (attempt_start w). cbn zeta.
  destruct (run loads device_handler (steps (Assist (calls w))) frame0 (attempt_start w))
    as [[l | e] w1]; [| reflexivity].
  destruct (status (Assist (calls w))); [reflexivity |].
  unfold attempt_end, closing_effects, when, stop_playback, bind, emit,
    update_self, ret.
  destruct (nonempty (device_actions_futures l)); cbn;
    rewrite <- ?app_assoc; reflexivity.
Qed.

(** Every attempt opens exactly one RPC. *)
Lemma assist_once_calls (w : World) :
  calls (snd (assist_once Assist loads device_handler w)) = S (calls w).
Proof.
  rewrite assist_once_eq. cbn zeta.
  pose proof (run_calls loads device_handler
                (steps (Assist (calls w))) frame0 (attempt_start w)) as H.
  destruct (run loads device_handler (steps (Assist (calls w))) frame0 (attempt_start w))
    as [[l | e] w1]; cbn in *.
  - destruct (status (Assist (calls w))); cbn; exact H.
  - exact H.
Qed.

(** An attempt whose RPC completes returns the decision of its
    responses, after the closing effects. *)
Lemma assist_once_completes (w : World) :
  completes loads (Assist (calls w)) = true ->
  exists l w1,
    run loads device_handler (steps (Assist (calls w))) frame0 (attempt_start w)
    = (Returned l, w1)
    /\ continue_conversation l
       = decided (delivered (steps (Assist (calls w)))) false
    /\ device_actions_futures l
       = pending loads device_handler (delivered (steps (Assist (calls w))))
    /\ assist_once Assist loads device_handler w
       = (Returned (continue_conversation l), attempt_end l w1).
Proof.
  unfold completes. intro H. apply andb_true_iff in H as [Hall Hst].
  rewrite assist_once_eq. cbn zeta.
  destruct (run_returns loads device_handler _ frame0 (attempt_start w) Hall)
    as (l & Hr & Hc & Hf).
  destruct (run loads device_handler (steps (Assist (calls w))) frame0 (attempt_start w))
    as [o w1] eqn:E.
  cbn in Hr. subst o.
  exists l, w1. repeat split; try assumption.
  destruct (status (Assist (calls w))); [discriminate | reflexivity].
Qed.

(** An attempt whose RPC does not complete raises. *)
Lemma assist_once_aborts (w : World) :
  completes loads (Assist (calls w)) = false ->
  exists e, fst (assist_once Assist loads device_handler w) = Raised e.
Proof.
  unfold completes. intro H. rewrite assist_once_eq. cbn zeta.
  destruct (forallb (parses loads) (delivered (steps (Assist (calls w)))))
    eqn:Hall.
  - destruct (run loads device_handler (steps (Assist (calls w))) frame0 (attempt_start w))
      as [[l | e] w1]; [| eexists; reflexivity].
    destruct (status (Assist (calls w))); [eexists; reflexivity |].
    discriminate.
  - pose proof (run_raises loads device_handler _ frame0 (attempt_start w)
                  Hall) as Hr.
    destruct (run loads device_handler (steps (Assist (calls w))) frame0 (attempt_start w))
      as [o w1].
    cbn in Hr. subst o. eexists; reflexivity.
Qed.

End AttemptFacts.

(** ** The retry decorator *)

(** Three attempts at most: the first two outcomes are passed on unless
    they are transient failures, the third is passed on as it is. *)
Lemma retry_three_eq {A} (fn : M A) (w : World) :
  retry true 3 is_grpc_error_unavailable fn w
  = if transient (fst (fn w)) then
      if transient (fst (fn (snd (fn w)))) then fn (snd (fn (snd (fn w))))
      else fn (snd (fn w))
    else fn w.
Proof.
  unfold retry. cbn.
  destruct (fn w) as [[a | e] w1]; cbn; [reflexivity |].
  destruct (is_grpc_error_unavailable e); [| reflexivity].
  destruct (fn w1) as [[a2 | e2] w2]; cbn; [reflexivity |].
  destruct (is_grpc_error_unavailable e2); [| reflexivity].
  destruct (fn w2) as [[a3 | e3] w3]; cbn; [reflexivity |].
  destruct (is_grpc_error_unavailable e3); reflexivity.
Qed.

(** Without [reraise] the third transient failure becomes a
    [RetryError]. *)
Lemma retry_three_no_reraise {A} (fn : M A) (w : World) :
  transient (fst (fn w)) = true ->
  transient (fst (fn (snd (fn w)))) = true ->
  transient (fst (fn (snd (fn (snd (fn w)))))) = true ->
  fst (retry false 3 is_grpc_error_unavailable fn w) = Raised RetryError.
Proof.
  unfold retry. cbn.
  destruct (fn w) as [[a | e] w1]; cbn; [discriminate |].
  intros ->.
  destruct (fn w1) as [[a2 | e2] w2]; cbn; [discriminate |].
  intros ->.
  destruct (fn w2) as [[a3 | e3] w3]; cbn; [discriminate |].
  intros ->. reflexivity.
Qed.

Lemma transient_unavailable {A} (o : Outcome A) :
  transient o = true <-> o = Raised (RpcError UNAVAILABLE).
Proof.
  destruct o as [a | [c | | |]]; cbn; split; try discriminate.
  - destruct c; cbn; try discriminate. reflexivity.
  - intros [= ->]. reflexivity.
Qed.

(** ** Closing is left to [__exit__] *)

Section Relations.

Variable Assist : nat -> Rpc.
Variable loads : string -> option Json.value.
Variable device_handler : Json.value -> list Future.

Lemma closed_same_refl w : closed_same w w.
Proof. reflexivity. Qed.

Lemma closed_same_trans a b c :
  closed_same a b -> closed_same b c -> closed_same a c.
Proof. unfold closed_same. congruence. Qed.

Lemma closed_same_step s l :
  preserves closed_same (step loads device_handler s l).
Proof.
  intro w. destruct s as [| resp]; cbn [step].
  - unfold bind at 1. rewrite iter_log_assist_requests_eq. cbn.
    apply pull_world_closed.
  - rewrite on_response_eq. cbn -[response_stream].
    unfold closed_same. cbn -[response_stream].
    apply response_stream_closed.
Qed.

Lemma closed_same_start_recording : preserves closed_same start_recording.
Proof. intro w. reflexivity. Qed.

Lemma closed_same_next_call : preserves closed_same (next_call Assist).
Proof. intro w. reflexivity. Qed.

Lemma closed_same_emit e : preserves closed_same (emit e).
Proof. intro w. reflexivity. Qed.

Lemma closed_same_stop_playback : preserves closed_same stop_playback.
Proof.
  intro w. unfold closed_same. cbn.
  unfold ConversationStream.stop_playback.
  destruct (ConversationStream.mode (conversation_stream (self w)));
    reflexivity.
Qed.

(** No number of turns closes the stream. *)
Lemma turns_closed_same n :
  preserves closed_same (turns Assist loads device_handler n).
Proof.
  apply preserves_turns;
    auto using closed_same_refl, closed_same_step,
      closed_same_start_recording, closed_same_next_call,
      closed_same_emit, closed_same_stop_playback.
  exact closed_same_trans.
Qed.

(** ** The flag of a new conversation *)

Lemma flag_order_refl w : flag_order w w.
Proof. exists []. rewrite app_nil_r. split; reflexivity. Qed.

Lemma flag_order_trans a b c :
  flag_order a b -> flag_order b c -> flag_order a c.
Proof.
  intros (d1 & T1 & H1) (d2 & T2 & H2).
  exists (d1 ++ d2). rewrite T2, T1, app_assoc. split; [reflexivity |].
  rewrite configs_app.
  destruct (configs d1) as [| c1 r1]; cbn.
  - destruct (configs d2) as [| c2 r2].
    + congruence.
    + destruct H2 as (E & F & G). repeat split; congruence.
  - destruct H1 as (E1 & F1 & G1). split; [exact E1 |].
    rewrite forallb_app, F1. cbn.
    destruct (configs d2) as [| c2 r2].
    + split; [reflexivity | congruence].
    + destruct H2 as (E2 & F2 & G2). cbn.
      rewrite E2, G1, F2. auto.
Qed.

(** An effect that yields nothing, with [self] untouched. *)
Lemma flag_order_emit e :
  yielded [e] = [] -> preserves flag_order (emit e).
Proof.
  intros Y w. exists [e]. split; [reflexivity |].
  unfold configs. rewrite Y. reflexivity.
Qed.

Lemma flag_order_step s l :
  preserves flag_order (step loads device_handler s l).
Proof.
  intro w. destruct s as [| resp]; cbn [step].
  - unfold bind at 1. rewrite iter_log_assist_requests_eq. cbn [snd ret].
    destruct (requests l); cbn [pull_world].
    + eexists. split; [reflexivity |]. cbn. auto.
    + eexists. split; [reflexivity |].
      destruct (fst (ConversationStream.next
                       (conversation_stream (self w)))); reflexivity.
    + apply flag_order_refl.
  - rewrite on_response_eq. cbn [snd].
    eexists. split; [reflexivity |].
    unfold configs. rewrite response_effects_yielded. reflexivity.
Qed.

Lemma flag_order_start_recording : preserves flag_order start_recording.
Proof. intro w. exists [Did_start_recording]. split; reflexivity. Qed.

Lemma flag_order_next_call : preserves flag_order (next_call Assist).
Proof. intro w. exists []. cbn. rewrite app_nil_r. split; reflexivity. Qed.

Lemma flag_order_stop_playback : preserves flag_order stop_playback.
Proof. intro w. exists [Did_stop_playback]. split; reflexivity. Qed.

Lemma turns_flag_order n :
  preserves flag_order (turns Assist loads device_handler n).
Proof.
  apply preserves_turns;
    auto using flag_order_refl, flag_order_step,
      flag_order_start_recording, flag_order_next_call,
      flag_order_stop_playback.
  - exact flag_order_trans.
  - intro fs. apply flag_order_emit. reflexivity.
Qed.

Lemma flag_order_first_then_false w w' :
  flag_order w w' ->
  first_then_false (is_new_conversation (self w)) (configs (since w w'))
  = true.
Proof.
  intros (d & T & H). rewrite (@since_app w w' d T).
  destruct (configs d) as [| c rest]; [reflexivity |].
  destruct H as (E & F & _). cbn. rewrite E, F, Bool.eqb_reflx.
  reflexivity.
Qed.

End Relations.

(** ** Requests taken off the generator in isolation *)

Lemma take_requests_S (n : nat) (g : Generator) (w : World) :
  take_requests (S n) g w
  = match gen_assist_requests g w with
    | (Returned r, w1) =>
        match take_requests n (snd r) w1 with
        | (Returned rest, w2) =>
            (Returned (match fst r with Some c => c :: rest | None => rest end),
             w2)
        | (Raised e, w2) => (Raised e, w2)
        end
    | (Raised e, w1) => (Raised e, w1)
    end.
Proof. reflexivity. Qed.

Lemma gen_assist_requests_created (w : World) :
  gen_assist_requests GenCreated w
  = (Returned (Some (Config (config_of (self w))), GenSuspended),
     {| self := set_is_new_conversation false (self w);
        trace := trace w;
        calls := calls w |}).
Proof. reflexivity. Qed.

Lemma gen_assist_requests_suspended (w : World) :
  gen_assist_requests GenSuspended w
  = let next := ConversationStream.next (conversation_stream (self w)) in
    (Returned (match fst next with
               | Some data => (Some (AudioIn data), GenSuspended)
               | None => (None, GenFinished)
               end),
     {| self := with_stream (fun _ => snd next) (self w);
        trace := trace w;
        calls := calls w |}).
Proof.
  unfold gen_assist_requests, bind, get. cbn.
  destruct (ConversationStream.next (conversation_stream (self w)))
    as [[data |] s']; reflexivity.
Qed.

Lemma take_requests_finished (n : nat) (w : World) :
  take_requests n GenFinished w = (Returned [], w).
Proof.
  induction n as [| n IH]; [reflexivity |].
  rewrite take_requests_S. cbn. rewrite IH. reflexivity.
Qed.

Lemma take_requests_suspended (n : nat) :
  forall w,
    fst (take_requests n GenSuspended w)
    = Returned (map AudioIn (firstn n (available w))).
Proof.
  induction n as [| n IH]; intro w; [reflexivity |].
  rewrite take_requests_S, gen_assist_requests_suspended. cbn zeta.
  unfold available, is_recording, ConversationStream.next.
  destruct (ConversationStream.recording (conversation_stream (self w)))
    eqn:R.
  - destruct (ConversationStream.source (conversation_stream (self w)))
      as [| chunk rest] eqn:S.
    + cbn. rewrite take_requests_finished. reflexivity.
    + cbn [fst snd].
      match goal with
      | |- context [take_requests n GenSuspended ?w1] =>
          specialize (IH w1);
          destruct (take_requests n GenSuspended w1) as [o w2] eqn:E
      end.
      cbn [fst] in IH. subst o. cbn [fst firstn map].
      unfold available, is_recording, ConversationStream.recording.
      cbn. unfold ConversationStream.recording in R. rewrite R.
      reflexivity.
  - cbn. rewrite take_requests_finished. reflexivity.
Qed.

(** * Properties of a turn *)

(** ** Audio out and playback *)

(** C1. A response with empty [audio_out.audio_data] leaves the playing
    flag as it was and asks for no [start_playback].  A response with
    non-empty audio that arrives while the stream is not playing asks, in
    this order and with nothing in between, for [stop_recording],
    [start_playback] and the write of its bytes, whatever its event type
    and whatever mode the stream was in; afterwards the stream is playing
    and no longer recording.  Over the steps of an RPC the buffers
    written, and the contents added to the sink, are the non-empty audio
    buffers of the processed responses in arrival order. *)
Theorem audio_out_starts_playback :
  forall (loads : string -> option Json.value)
         (device_handler : Json.value -> list Future),
    (forall resp l w,
        audio_of resp = [] ->
        let w' := snd (on_response loads device_handler resp l w) in
        is_playing w' = is_playing w
        /\ existsb starts_playback (since w w') = false)
    /\ (forall resp l w,
           nonempty (audio_of resp) = true ->
           is_playing w = false ->
           let w' := snd (on_response loads device_handler resp l w) in
           exists pre post,
             since w w'
             = pre ++ [Did_stop_recording; Did_start_playback;
                       Did_write (audio_of resp)] ++ post
             /\ existsb starts_playback pre = false
             /\ written pre = []
             /\ existsb starts_playback post = false
             /\ written post = []
             /\ is_playing w' = true
             /\ is_recording w' = false
             /\ sink_of w' = sink_of w ++ [audio_of resp])
    /\ (forall ss l w,
           let w' := snd (run loads device_handler ss l w) in
           written (since w w')
           = audio_chunks (delivered (processed loads ss))
           /\ sink_of w'
              = sink_of w ++ audio_chunks (delivered (processed loads ss))).
Proof.
  intros loads device_handler. split; [| split].
  - intros resp l w Hempty w'. subst w'.
    rewrite on_response_eq. cbn [snd].
    rewrite (@since_app w (response_world loads resp w) _ eq_refl).
    destruct w as [[lc dm di [m sr vp src snk cl] dsp cs inc] tr n].
    destruct resp as [ev sp [ad] [tok vol mm] [js] [sd]].
    cbn in Hempty. subst ad.
    unfold is_playing, response_world, response_stream, response_effects,
      audio_of, json_of. cbn.
    split.
    + destruct ev, m, (vol =? 0)%Z; reflexivity.
    + destruct ev, (nonempty sp), (vol =? 0)%Z, (truthy js), (loads js),
        dsp, (nonempty sd); reflexivity.
  - intros resp l w Haudio Hplay w'. subst w'.
    rewrite on_response_eq. cbn [snd].
    rewrite (@since_app w (response_world loads resp w) _ eq_refl).
    unfold is_playing in Hplay. unfold response_effects.
    rewrite Haudio, Hplay. cbn [app].
    match goal with
    | |- context [?a ++ ?b ++ Did_stop_recording :: Did_start_playback
                    :: Did_write (audio_of resp) :: ?c ++ ?d] =>
        exists (a ++ b), (c ++ d)
    end.
    split; [rewrite <- app_assoc; reflexivity |].
    destruct w as [[lc dm di [m sr vp src snk cl] dsp cs inc] tr n].
    destruct resp as [ev sp [ad] [tok vol mm] [js] [sd]].
    unfold audio_of in *. cbn in Haudio, Hplay |- *.
    unfold is_playing, is_recording, sink_of, response_world,
      response_stream, audio_of, json_of. cbn. rewrite Haudio.
    repeat split.
    + destruct ev, (nonempty sp); reflexivity.
    + destruct ev, (nonempty sp); reflexivity.
    + destruct (vol =? 0)%Z, (truthy js), (loads js), dsp, (nonempty sd);
        reflexivity.
    + destruct (vol =? 0)%Z, (truthy js), (loads js), dsp, (nonempty sd);
        reflexivity.
    + destruct ev, m, (vol =? 0)%Z; cbn in *; congruence.
    + destruct ev, m, (vol =? 0)%Z; cbn in *; congruence.
    + destruct ev, m, (vol =? 0)%Z; cbn in *; congruence.
  - intros ss l w w'. subst w'. split.
    + destruct (run_trace loads device_handler ss l w) as (d & T & W & _).
      rewrite (@since_app _ _ _ T). exact W.
    + apply run_sink.
Qed.

(** ** The decision to continue *)

Lemma decided_follow_on (rs : list AssistResponse.t) :
  decided rs false = true <-> last_directive rs = Some DIALOG_FOLLOW_ON.
Proof.
  unfold decided.
  destruct (last_directive rs) as [[| |] |];
    split; intro H; try discriminate; reflexivity.
Qed.

Lemma no_follow_on_directive (rs : list AssistResponse.t) :
  existsb carries_follow_on rs = false -> decided rs false = false.
Proof.
  intro Hnone.
  destruct (decided rs false) eqn:E; [| reflexivity].
  apply decided_follow_on in E. exfalso.
  induction rs as [| r rs IH]; [discriminate |].
  cbn in Hnone. apply orb_false_iff in Hnone as [Hr Hrs].
  cbn in E. destruct (last_directive rs) as [m |]; [exact (IH Hrs E) |].
  unfold carries_follow_on in Hr. destruct (mode_of r); discriminate.
Qed.

(** An attempt returns the decision of its responses when its RPC
    completes, and raises when it does not. *)
Lemma assist_once_outcome (Assist : nat -> Rpc)
    (loads : string -> option Json.value)
    (device_handler : Json.value -> list Future) (w : World) :
  let rpc := Assist (calls w) in
  let outcome := fst (assist_once Assist loads device_handler w) in
  (completes loads rpc = true ->
   outcome = Returned (decided (delivered (steps rpc)) false))
  /\ (completes loads rpc = false -> exists e, outcome = Raised e)
  /\ (forall b, outcome = Returned b ->
                b = decided (delivered (steps rpc)) false).
Proof.
  intros rpc outcome.
  assert (C : completes loads rpc = true ->
              outcome = Returned (decided (delivered (steps rpc)) false)).
  { intro H. subst outcome rpc.
    destruct (assist_once_completes Assist loads device_handler w H)
      as (l & w1 & _ & Hc & _ & E).
    rewrite E, Hc. reflexivity. }
  assert (A : completes loads rpc = false -> exists e, outcome = Raised e).
  { intro H. subst outcome rpc.
    exact (assist_once_aborts Assist loads device_handler w H). }
  repeat split; [exact C | exact A |].
  intros b Hb. destruct (completes loads rpc).
  - rewrite (C eq_refl) in Hb. congruence.
  - destruct (A eq_refl) as (e & He). congruence.
Qed.

(** C2. Whenever one attempt of [assist] returns, the value it returns
    is true exactly when the last response that carries a microphone
    directive carries [DIALOG_FOLLOW_ON]; and it does return, with that
    value, whenever the RPC completes (every device request decodes and
    the response iterator ends without raising). *)
Theorem continue_conversation_last_directive :
  forall (Assist : nat -> Rpc) (loads : string -> option Json.value)
         (device_handler : Json.value -> list Future) (w : World),
    let rpc := Assist (calls w) in
    let outcome := fst (assist_once Assist loads device_handler w) in
    (forall b,
        outcome = Returned b ->
        (b = true
         <-> last_directive (delivered (steps rpc)) = Some DIALOG_FOLLOW_ON))
    /\ (completes loads rpc = true ->
        exists b,
          outcome = Returned b
          /\ (b = true
              <-> last_directive (delivered (steps rpc))
                  = Some DIALOG_FOLLOW_ON)).
Proof.
  intros Assist loads device_handler w rpc outcome.
  destruct (assist_once_outcome Assist loads device_handler w)
    as (C & _ & R).
  fold rpc outcome in C, R.
  split.
  - intros b Hb. rewrite (R b Hb). apply decided_follow_on.
  - intro H. eexists. split; [exact (C H) |]. apply decided_follow_on.
Qed.

(** C9. With no [DIALOG_FOLLOW_ON] directive among the responses, the
    empty stream included, one attempt of [assist] never returns true:
    it returns false whenever the RPC completes (otherwise it raises and
    returns nothing). *)
Theorem continue_conversation_default :
  forall (Assist : nat -> Rpc) (loads : string -> option Json.value)
         (device_handler : Json.value -> list Future) (w : World),
    let rpc := Assist (calls w) in
    let outcome := fst (assist_once Assist loads device_handler w) in
    existsb carries_follow_on (delivered (steps rpc)) = false ->
    (completes loads rpc = true -> outcome = Returned false)
    /\ (completes loads rpc = false -> exists e, outcome = Raised e)
    /\ (forall b, outcome = Returned b -> b = false).
Proof.
  intros Assist loads device_handler w rpc outcome Hnone.
  destruct (assist_once_outcome Assist loads device_handler w)
    as (C & A & R).
  fold rpc outcome in C, A, R.
  pose proof (no_follow_on_directive _ Hnone) as D.
  repeat split.
  - intro H. rewrite (C H), D. reflexivity.
  - exact A.
  - intros b Hb. rewrite (R b Hb). exact D.
Qed.

(** ** The end of a turn *)

Lemma attempt_end_not_playing (l : Frame) (w : World) :
  is_playing (attempt_end l w) = false.
Proof.
  unfold is_playing, attempt_end, ConversationStream.playing. cbn.
  unfold ConversationStream.stop_playback.
  destruct (ConversationStream.mode (conversation_stream (self w))) eqn:E;
    cbn; try rewrite E; reflexivity.
Qed.

(** C6. When the response stream of an attempt is exhausted (the RPC
    completes), the loop has returned a frame holding every handle that
    the device handler gave out during the turn; [assist] then waits for
    those handles if there are any, then stops playback in every case,
    and returns the decision only after that: the trace ends with the
    wait (if any) followed by [stop_playback], and the stream is not
    playing. *)
Theorem turn_end_waits_then_stops_playback :
  forall (Assist : nat -> Rpc) (loads : string -> option Json.value)
         (device_handler : Json.value -> list Future) (w : World),
    let rpc := Assist (calls w) in
    completes loads rpc = true ->
    exists l w1,
      run loads device_handler (steps rpc) frame0 (attempt_start w)
      = (Returned l, w1)
      /\ device_actions_futures l
         = pending loads device_handler (delivered (steps rpc))
      /\ fst (assist_once Assist loads device_handler w)
         = Returned (continue_conversation l)
      /\ trace (snd (assist_once Assist loads device_handler w))
         = trace w1
           ++ (if nonempty (device_actions_futures l)
               then [Waited (device_actions_futures l)] else [])
           ++ [Did_stop_playback]
      /\ is_playing (snd (assist_once Assist loads device_handler w)) = false.
Proof.
  intros Assist loads device_handler w rpc H. subst rpc.
  destruct (assist_once_completes Assist loads device_handler w H)
    as (l & w1 & Hrun & _ & Hf & E).
  exists l, w1. rewrite E. cbn [fst snd].
  repeat split; try assumption.
  apply attempt_end_not_playing.
Qed.

(** ** The conversation state *)

Lemma assist_once_conversation_state (Assist : nat -> Rpc)
    (loads : string -> option Json.value)
    (device_handler : Json.value -> list Future) (w : World) :
  conversation_state (self (snd (assist_once Assist loads device_handler w)))
  = match last_state
            (delivered (processed loads (steps (Assist (calls w))))) with
    | Some t => Some t
    | None => conversation_state (self w)
    end.
Proof.
  rewrite assist_once_eq. cbn zeta.
  pose proof (run_conversation_state loads device_handler
                (steps (Assist (calls w))) frame0 (attempt_start w)) as H.
  destruct (run loads device_handler (steps (Assist (calls w))) frame0
              (attempt_start w)) as [[l | e] w1]; cbn [snd] in *.
  - destruct (status (Assist (calls w))); cbn [snd]; exact H.
  - exact H.
Qed.

(** C5. A response with a non-empty [conversation_state] has it stored
    in [self.conversation_state]; a fresh request generator run on an
    assistant that holds a state yields a configuration whose
    [conversation_state] is that state, byte for byte; and so the last
    state received during one attempt is the one a generator started
    after it sends. *)
Theorem conversation_state_round_trip :
  forall (Assist : nat -> Rpc) (loads : string -> option Json.value)
         (device_handler : Json.value -> list Future),
    (forall resp l w,
        nonempty (state_of resp) = true ->
        conversation_state
          (self (snd (on_response loads device_handler resp l w)))
        = Some (state_of resp))
    /\ (forall w token,
           conversation_state (self w) = Some token ->
           exists config,
             fst (gen_assist_requests GenCreated w)
             = Returned (Some (Config config), GenSuspended)
             /\ token_of config = token)
    /\ (forall w token,
           last_state (delivered (processed loads (steps (Assist (calls w)))))
           = Some token ->
           let w' := snd (assist_once Assist loads device_handler w) in
           conversation_state (self w') = Some token
           /\ exists config,
               fst (gen_assist_requests GenCreated w')
               = Returned (Some (Config config), GenSuspended)
               /\ token_of config = token).
Proof.
  intros Assist loads device_handler.
  assert (G : forall w token,
             conversation_state (self w) = Some token ->
             exists config,
               fst (gen_assist_requests GenCreated w)
               = Returned (Some (Config config), GenSuspended)
               /\ token_of config = token).
  { intros w token H. rewrite gen_assist_requests_created. cbn [fst].
    eexists. split; [reflexivity |].
    unfold token_of, config_of. cbn. rewrite H. reflexivity. }
  split; [| split].
  - intros resp l w H. rewrite on_response_eq. cbn. rewrite H. reflexivity.
  - exact G.
  - intros w token H w'. subst w'.
    assert (S : conversation_state
                  (self (snd (assist_once Assist loads device_handler w)))
                = Some token).
    { rewrite assist_once_conversation_state, H. reflexivity. }
    split; [exact S | exact (G _ _ S)].
Qed.

(** ** The order of the requests *)

Lemma assist_once_yielded (Assist : nat -> Rpc)
    (loads : string -> option Json.value)
    (device_handler : Json.value -> list Future) (w : World) :
  exists d,
    yielded (since w (snd (assist_once Assist loads device_handler w)))
    = yielded d
    /\ if existsb is_pull (processed loads (steps (Assist (calls w))))
       then config_then_audio (yielded d) = true
       else yielded d = [].
Proof.
  rewrite assist_once_eq. cbn zeta.
  destruct (run_trace loads device_handler (steps (Assist (calls w)))
              frame0 (attempt_start w)) as (d & T & _ & Y).
  cbn [requests frame0] in Y.
  exists d. split; [| exact Y].
  destruct (run loads device_handler (steps (Assist (calls w))) frame0
              (attempt_start w)) as [[l | e] w1]; cbn [snd] in *.
  - destruct (status (Assist (calls w))); cbn [snd].
    + rewrite (@since_app w w1 (Did_start_recording :: d)).
      * reflexivity.
      * rewrite T. cbn. rewrite <- app_assoc. reflexivity.
    + rewrite (@since_app w (attempt_end l w1)
                 (Did_start_recording :: d ++ closing_effects l)).
      * change (Did_start_recording :: d ++ closing_effects l)
          with ([Did_start_recording] ++ d ++ closing_effects l).
        rewrite !yielded_app. unfold closing_effects.
        destruct (nonempty (device_actions_futures l)); cbn;
          rewrite app_nil_r; reflexivity.
      * cbn. rewrite T. cbn. rewrite <- !app_assoc. reflexivity.
  - rewrite (@since_app w w1 (Did_start_recording :: d)).
    + reflexivity.
    + rewrite T. cbn. rewrite <- app_assoc. reflexivity.
Qed.

(** C4. In every attempt of a turn, the requests handed to the transport
    are none (the transport never pulled) or a configuration followed by
    audio only; and a generator drained on its own yields the
    configuration built from [self], then one audio request per input
    chunk, in order, and nothing else. *)
Theorem config_first_then_audio :
  forall (Assist : nat -> Rpc) (loads : string -> option Json.value)
         (device_handler : Json.value -> list Future),
    (forall w,
        let out :=
          yielded (since w (snd (assist_once Assist loads device_handler w)))
        in
        if existsb is_pull (processed loads (steps (Assist (calls w))))
        then config_then_audio out = true
        else out = [])
    /\ (forall n w,
           fst (take_requests (S n) GenCreated w)
           = Returned (Config (config_of (self w))
                       :: map AudioIn (firstn n (available w)))).
Proof.
  intros Assist loads device_handler. split.
  - intros w out. subst out.
    destruct (assist_once_yielded Assist loads device_handler w)
      as (d & -> & H).
    exact H.
  - intros n w. rewrite take_requests_S, gen_assist_requests_created.
    cbn [fst snd].
    match goal with
    | |- context [take_requests n GenSuspended ?w1] =>
        pose proof (take_requests_suspended n w1) as H;
        destruct (take_requests n GenSuspended w1) as [o w2]
    end.
    cbn [fst] in H. subst o. reflexivity.
Qed.

(** C10. [gen_assist_requests] clears [is_new_conversation] before its
    first yield, and the configuration it yields carries the flag as it
    was.  Over any number of turns, retried attempts included, the first
    configuration sent carries the flag the session had at the start and
    every later one carries false; from a fresh assistant the first one
    carries true. *)
Theorem is_new_conversation_only_first :
  forall (Assist : nat -> Rpc) (loads : string -> option Json.value)
         (device_handler : Json.value -> list Future),
    (forall w,
        fst (gen_assist_requests GenCreated w)
        = Returned (Some (Config (config_of (self w))), GenSuspended)
        /\ is_new (config_of (self w)) = is_new_conversation (self w)
        /\ is_new_conversation
             (self (snd (gen_assist_requests GenCreated w))) = false)
    /\ (forall n w,
           first_then_false (is_new_conversation (self w))
             (configs (since w (snd (turns Assist loads device_handler n w))))
           = true)
    /\ (forall n language device_model device stream display_on,
           let w := {| self := __init__ language device_model device stream
                                 display_on;
                       trace := [];
                       calls := 0 |} in
           first_then_false true
             (configs (trace (snd (turns Assist loads device_handler n w))))
           = true).
Proof.
  intros Assist loads device_handler.
  assert (T : forall n w,
             first_then_false (is_new_conversation (self w))
               (configs
                  (since w (snd (turns Assist loads device_handler n w))))
             = true).
  { intros n w. apply flag_order_first_then_false, turns_flag_order. }
  split; [| split].
  - intro w. rewrite gen_assist_requests_created. repeat split.
  - exact T.
  - intros n language device_model device stream display_on w.
    specialize (T n w). unfold since in T. exact T.
Qed.

(** ** Leaving the [with] block *)

Lemma with_assistant_eq {A} (body : M A) (w : World) :
  with_assistant body w
  = match body w with
    | (Returned a, w1) =>
        (Returned (Some a),
         {| self := with_stream ConversationStream.close (self w1);
            trace := trace w1 ++ [Did_close];
            calls := calls w1 |})
    | (Raised e, w1) => (Raised e, w1)
    end.
Proof.
  unfold with_assistant, __enter__, bind at 1, ret at 1.
  destruct (body w) as [[a | e] w1]; reflexivity.
Qed.

(** C8. Leaving the session closes the conversation stream exactly once
    when the turns returned, and not at all when a turn raised: then the
    exception leaves the [with] block with the stream still open. *)
Theorem session_closes_stream_unless_raised :
  forall (Assist : nat -> Rpc) (loads : string -> option Json.value)
         (device_handler : Json.value -> list Future) (n : nat) (w : World),
    let body := fst (turns Assist loads device_handler n w) in
    let after := session Assist loads device_handler n w in
    fst after
    = match body with
      | Returned u => Returned (Some u)
      | Raised e => Raised e
      end
    /\ closed_of (snd after)
       = match body with
         | Returned _ => S (closed_of w)
         | Raised _ => closed_of w
         end.
Proof.
  intros Assist loads device_handler n w body after. subst body after.
  unfold session. rewrite with_assistant_eq.
  pose proof (turns_closed_same Assist loads device_handler n w) as H.
  unfold closed_same in H. unfold closed_of.
  destruct (turns Assist loads device_handler n w) as [[u | e] w1];
    cbn in *; rewrite H; split; reflexivity.
Qed.

(** ** A device request that does not decode *)

Lemma processed_cut (loads : string -> option Json.value)
    (before : list Step) (resp : AssistResponse.t) (rest : list Step) :
  parses loads resp = false ->
  processed loads (before ++ Deliver resp :: rest)
  = processed loads (before ++ [Deliver resp]).
Proof.
  intro H. induction before as [| [| r] before IH]; cbn.
  - rewrite H. reflexivity.
  - rewrite IH. reflexivity.
  - destruct (parses loads r); [rewrite IH |]; reflexivity.
Qed.

Lemma assist_once_decode_error (Assist : nat -> Rpc)
    (loads : string -> option Json.value)
    (device_handler : Json.value -> list Future) (w : World) :
  forallb (parses loads) (delivered (steps (Assist (calls w)))) = false ->
  fst (assist_once Assist loads device_handler w) = Raised JSONDecodeError.
Proof.
  intro H. rewrite assist_once_eq. cbn zeta.
  pose proof (run_raises loads device_handler _ frame0 (attempt_start w) H)
    as Hr.
  destruct (run loads device_handler (steps (Assist (calls w))) frame0
              (attempt_start w)) as [o w1].
  cbn in Hr. subst o. reflexivity.
Qed.

(** C7, as the code has it.  A device request that does not decode
    makes [on_response] raise the decoding error.  The loop ends at that
    response: the steps after it are not run.  [assist] raises the error
    after that single attempt, since the retry predicate rejects it, and
    the error leaves the [with] block.  A device request that decodes is
    handed to the device handler and the loop goes on with the handles it
    returned. *)
Theorem malformed_device_request_raises :
  forall (Assist : nat -> Rpc) (loads : string -> option Json.value)
         (device_handler : Json.value -> list Future),
    (forall resp l w,
        parses loads resp = false ->
        fst (on_response loads device_handler resp l w)
        = Raised JSONDecodeError)
    /\ (forall before resp rest l w,
           parses loads resp = false ->
           run loads device_handler (before ++ Deliver resp :: rest) l w
           = run loads device_handler (before ++ [Deliver resp]) l w
           /\ fst (run loads device_handler
                     (before ++ Deliver resp :: rest) l w)
              = Raised JSONDecodeError)
    /\ (forall w,
           forallb (parses loads) (delivered (steps (Assist (calls w))))
           = false ->
           assist Assist loads device_handler w
           = assist_once Assist loads device_handler w
           /\ fst (assist Assist loads device_handler w)
              = Raised JSONDecodeError
           /\ calls (snd (assist Assist loads device_handler w))
              = S (calls w)
           /\ forall n,
               fst (session Assist loads device_handler (S n) w)
               = Raised JSONDecodeError)
    /\ (forall resp l w,
           parses loads resp = true ->
           exists l',
             fst (on_response loads device_handler resp l w) = Returned l'
             /\ device_actions_futures l'
                = device_actions_futures l
                  ++ pending loads device_handler [resp]).
Proof.
  intros Assist loads device_handler. repeat apply conj.
  - intros resp l w H. rewrite on_response_eq. cbn [fst].
    apply response_frame_fails, H.
  - intros before resp rest l w H.
    rewrite run_processed, (processed_cut loads before resp rest H).
    rewrite <- run_processed. split; [reflexivity |].
    apply run_raises. rewrite delivered_app, forallb_app. cbn.
    rewrite H. apply andb_false_r.
  - intros w H.
    pose proof (assist_once_decode_error Assist loads device_handler w H)
      as E.
    assert (A : assist Assist loads device_handler w
                = assist_once Assist loads device_handler w).
    { unfold assist. rewrite retry_three_eq, E. reflexivity. }
    rewrite A. repeat split.
    + exact E.
    + apply assist_once_calls.
    + intro n. unfold session. rewrite with_assistant_eq.
      cbn [turns]. unfold bind at 1. rewrite A.
      destruct (assist_once Assist loads device_handler w) as [o w1].
      cbn in E. subst o. reflexivity.
  - intros resp l w H. rewrite on_response_eq. cbn [fst].
    destruct (response_frame_parses loads device_handler resp l H)
      as (l' & E & _ & F & _).
    exists l'. split; assumption.
Qed.

(** ** Retrying *)

(** C3, as the code has it.  [assist] makes one, two or three attempts.
    The outcome of the first or second attempt is final unless it is the
    service-unavailable RPC error; a returned value is passed on
    unchanged.  The outcome of the third attempt is final whatever it
    is: after three service-unavailable failures [assist] raises that
    same RPC error again (the decorator is given [reraise]), having made
    three attempts and no fourth. *)
Theorem assist_retries_unavailable_up_to_three :
  forall (Assist : nat -> Rpc) (loads : string -> option Json.value)
         (device_handler : Json.value -> list Future) (w : World),
    let attempt := assist_once Assist loads device_handler in
    let a1 := attempt w in
    let a2 := attempt (snd a1) in
    let a3 := attempt (snd a2) in
    let result := assist Assist loads device_handler w in
    result
    = (if transient (fst a1) then
         if transient (fst a2) then a3 else a2
       else a1)
    /\ calls (snd result)
       = calls w + (if transient (fst a1) then
                      if transient (fst a2) then 3 else 2
                    else 1)
    /\ (forall v, fst a1 = Returned v -> result = a1)
    /\ (forall e, fst a1 = Raised e ->
                  is_grpc_error_unavailable e = false -> result = a1)
    /\ (transient (fst a1) = true ->
        transient (fst a2) = true ->
        transient (fst a3) = true ->
        fst result = Raised (RpcError UNAVAILABLE)
        /\ calls (snd result) = calls w + 3).
Proof.
  intros Assist loads device_handler w attempt a1 a2 a3 result.
  assert (E : result
              = (if transient (fst a1) then
                   if transient (fst a2) then a3 else a2
                 else a1)).
  { subst result a1 a2 a3 attempt. unfold assist.
    apply retry_three_eq. }
  assert (C1 : calls (snd a1) = S (calls w)).
  { apply assist_once_calls. }
  assert (C2 : calls (snd a2) = S (S (calls w))).
  { subst a2 attempt. rewrite assist_once_calls, C1. reflexivity. }
  assert (C3 : calls (snd a3) = S (S (S (calls w)))).
  { subst a3 attempt. rewrite assist_once_calls, C2. reflexivity. }
  assert (N : calls (snd result)
              = calls w + (if transient (fst a1) then
                             if transient (fst a2) then 3 else 2
                           else 1)).
  { rewrite E. destruct (transient (fst a1)), (transient (fst a2)); lia. }
  repeat apply conj.
  - exact E.
  - exact N.
  - intros v H. rewrite E, H. reflexivity.
  - intros e H He. rewrite E, H. cbn. rewrite He. reflexivity.
  - intros T1 T2 T3. split.
    + rewrite E, T1, T2. apply transient_unavailable, T3.
    + rewrite N, T1, T2. reflexivity.
Qed.

(** * Concrete runs *)

(** The scenario of the specification: recording stops at the end of
    the utterance, playback starts with the audio, the bytes are written,
    the microphone is closed and playback stops at the end. *)
Example scenario_run :
  let r := assist (always scenario_rpc) Json.loads sample_handler
             sample_world in
  fst r = Returned false
  /\ since (attempt_start sample_world) (snd r)
     = [Yielded (Config (config_of (self sample_world)));
        Yielded (AudioIn (bytes_of "a"));
        Did_stop_recording;
        Did_stop_recording; Did_start_playback; Did_write (bytes_of "AB");
        Did_stop_playback]
  /\ sink_of (snd r) = [bytes_of "AB"].
Proof. repeat split. Qed.

(** C1, at the audio response of the scenario and at its first one. *)
Lemma audio_out_starts_playback_witness :
  (audio_of (Response.event END_OF_UTTERANCE) = []
   /\ existsb starts_playback
        (since sample_world
           (snd (on_response Json.loads sample_handler
                   (Response.event END_OF_UTTERANCE) frame0 sample_world)))
      = false)
  /\ (nonempty (audio_of (Response.audio (bytes_of "AB"))) = true
      /\ is_playing (attempt_start sample_world) = false
      /\ is_playing
           (snd (on_response Json.loads sample_handler
                   (Response.audio (bytes_of "AB")) frame0
                   (attempt_start sample_world)))
         = true)
  /\ sink_of (snd (run Json.loads sample_handler (steps scenario_rpc)
                     frame0 sample_world))
     = sink_of sample_world
       ++ audio_chunks
            (delivered (processed Json.loads (steps scenario_rpc))).
Proof.
  destruct (audio_out_starts_playback Json.loads sample_handler)
    as (Hempty & Haudio & Horder).
  split; [| split].
  - split; [reflexivity |].
    exact (proj2 (Hempty (Response.event END_OF_UTTERANCE) frame0
                    sample_world eq_refl)).
  - split; [reflexivity | split; [reflexivity |]].
    destruct (Haudio (Response.audio (bytes_of "AB")) frame0
                (attempt_start sample_world) eq_refl eq_refl)
      as (pre & post & _ & _ & _ & _ & _ & P & _).
    exact P.
  - exact (proj2 (Horder (steps scenario_rpc) frame0 sample_world)).
Defined.

(** C2, at a turn that ends on a follow-on directive. *)
Lemma continue_conversation_last_directive_witness :
  completes Json.loads follow_on_rpc = true
  /\ exists b,
      fst (assist_once (always follow_on_rpc) Json.loads sample_handler
             sample_world) = Returned b
      /\ (b = true
          <-> last_directive (delivered (steps follow_on_rpc))
              = Some DIALOG_FOLLOW_ON).
Proof.
  split; [reflexivity |].
  exact (proj2 (continue_conversation_last_directive
                  (always follow_on_rpc) Json.loads sample_handler
                  sample_world) eq_refl).
Defined.

(** C9, at the scenario, which carries no follow-on directive. *)
Lemma continue_conversation_default_witness :
  existsb carries_follow_on (delivered (steps scenario_rpc)) = false
  /\ completes Json.loads scenario_rpc = true
  /\ fst (assist_once (always scenario_rpc) Json.loads sample_handler
            sample_world) = Returned false.
Proof.
  split; [reflexivity | split; [reflexivity |]].
  exact (proj1 (continue_conversation_default
                  (always scenario_rpc) Json.loads sample_handler
                  sample_world eq_refl) eq_refl).
Defined.

(** C6, at a turn with one device action, and so one handle to wait
    for. *)
Lemma turn_end_waits_then_stops_playback_witness :
  completes Json.loads device_rpc = true
  /\ exists l w1,
      run Json.loads sample_handler (steps device_rpc) frame0
        (attempt_start sample_world) = (Returned l, w1)
      /\ device_actions_futures l
         = pending Json.loads sample_handler (delivered (steps device_rpc))
      /\ fst (assist_once (always device_rpc) Json.loads sample_handler
                sample_world) = Returned (continue_conversation l)
      /\ trace (snd (assist_once (always device_rpc) Json.loads
                       sample_handler sample_world))
         = trace w1
           ++ (if nonempty (device_actions_futures l)
               then [Waited (device_actions_futures l)] else [])
           ++ [Did_stop_playback]
      /\ is_playing (snd (assist_once (always device_rpc) Json.loads
                            sample_handler sample_world)) = false.
Proof.
  split; [reflexivity |].
  exact (turn_end_waits_then_stops_playback
           (always device_rpc) Json.loads sample_handler sample_world
           eq_refl).
Defined.

(** The wait of that turn is for the handle of its one action. *)
Example device_turn_waits :
  since (attempt_start sample_world)
    (snd (assist (always device_rpc) Json.loads sample_handler sample_world))
  = [Yielded (Config (config_of (self sample_world)));
     Handled (Json.Object []); Waited [7]; Did_stop_playback].
Proof. reflexivity. Qed.

(** C5, at a turn that receives the state [tok]. *)
Lemma conversation_state_round_trip_witness :
  last_state (delivered (processed Json.loads (steps follow_on_rpc)))
  = Some (bytes_of "tok")
  /\ conversation_state
       (self (snd (assist_once (always follow_on_rpc) Json.loads
                     sample_handler sample_world)))
     = Some (bytes_of "tok")
  /\ exists config,
      fst (gen_assist_requests GenCreated
             (snd (assist_once (always follow_on_rpc) Json.loads
                     sample_handler sample_world)))
      = Returned (Some (Config config), GenSuspended)
      /\ token_of config = bytes_of "tok".
Proof.
  split; [reflexivity |].
  exact (proj2 (proj2 (conversation_state_round_trip
                         (always follow_on_rpc) Json.loads sample_handler))
           sample_world (bytes_of "tok") eq_refl).
Defined.

(** The next turn of that session sends the state it received. *)
Example second_turn_sends_state :
  map token_of
    (configs (trace (snd (turns (always follow_on_rpc) Json.loads
                            sample_handler 2 sample_world))))
  = [[]; bytes_of "tok"]
  /\ map is_new
       (configs (trace (snd (turns (always follow_on_rpc) Json.loads
                               sample_handler 2 sample_world))))
     = [true; false].
Proof. split; reflexivity. Qed.

(** C7: a device request that is not JSON.  The decoding error leaves
    [assist] and the session; the audio that follows the request in the
    stream is never written. *)
Lemma malformed_device_request_escapes :
  parses Json.loads (Response.device "{") = false
  /\ fst (assist (always malformed_rpc) Json.loads sample_handler
            sample_world) = Raised JSONDecodeError
  /\ sink_of (snd (assist (always malformed_rpc) Json.loads sample_handler
                     sample_world)) = []
  /\ calls (snd (assist (always malformed_rpc) Json.loads sample_handler
                   sample_world)) = 1
  /\ fst (session (always malformed_rpc) Json.loads sample_handler 1
            sample_world) = Raised JSONDecodeError.
Proof. repeat split. Qed.

(** C7 as amended, at that request. *)
Lemma malformed_device_request_raises_witness :
  parses Json.loads (Response.device "{") = false
  /\ fst (on_response Json.loads sample_handler (Response.device "{")
            frame0 sample_world) = Raised JSONDecodeError
  /\ fst (assist (always malformed_rpc) Json.loads sample_handler
            sample_world) = Raised JSONDecodeError
  /\ parses Json.loads (Response.device "{}") = true
  /\ exists l',
      fst (on_response Json.loads sample_handler (Response.device "{}")
             frame0 sample_world) = Returned l'
      /\ device_actions_futures l'
         = device_actions_futures frame0
           ++ pending Json.loads sample_handler [Response.device "{}"].
Proof.
  destruct (malformed_device_request_raises
              (always malformed_rpc) Json.loads sample_handler)
    as (Hraise & _ & Hassist & Hgood).
  split; [reflexivity |]. split.
  - exact (Hraise (Response.device "{") frame0 sample_world eq_refl).
  - split.
    + exact (proj1 (proj2 (Hassist sample_world eq_refl))).
    + split; [reflexivity |].
      exact (Hgood (Response.device "{}") frame0 sample_world eq_refl).
Defined.

(** C3: three attempts that find the service unavailable.  [assist]
    raises the RPC error of the third attempt, not a [RetryError]; the
    same decorator without [reraise] would raise the latter. *)
Lemma three_unavailable_attempts_reraise :
  fst (assist (always unavailable_rpc) Json.loads sample_handler
         sample_world) = Raised (RpcError UNAVAILABLE)
  /\ fst (assist (always unavailable_rpc) Json.loads sample_handler
            sample_world) <> Raised RetryError
  /\ calls (snd (assist (always unavailable_rpc) Json.loads sample_handler
                   sample_world)) = 3
  /\ fst (retry false 3 is_grpc_error_unavailable
            (assist_once (always unavailable_rpc) Json.loads sample_handler)
            sample_world) = Raised RetryError.
Proof. repeat split. discriminate. Qed.

(** C3 as amended, at those three attempts. *)
Lemma assist_retries_unavailable_up_to_three_witness :
  transient (fst (assist_once (always unavailable_rpc) Json.loads
                    sample_handler sample_world)) = true
  /\ fst (assist (always unavailable_rpc) Json.loads sample_handler
            sample_world) = Raised (RpcError UNAVAILABLE)
  /\ calls (snd (assist (always unavailable_rpc) Json.loads sample_handler
                   sample_world)) = calls sample_world + 3.
Proof.
  split; [reflexivity |].
  exact (proj2 (proj2 (proj2 (proj2
           (assist_retries_unavailable_up_to_three
              (always unavailable_rpc) Json.loads sample_handler
              sample_world))))
           eq_refl eq_refl eq_refl).
Defined.

(** One unavailable attempt, then the scenario: the second attempt's
    value is returned and no third attempt is made. *)
Example retry_then_success :
  fst (assist (script [unavailable_rpc] scenario_rpc) Json.loads
         sample_handler sample_world) = Returned false
  /\ calls (snd (assist (script [unavailable_rpc] scenario_rpc) Json.loads
                   sample_handler sample_world)) = 2.
Proof. split; reflexivity. Qed.

(** C8: a session whose only turn is refused.  The error leaves the
    [with] block and the stream has not been closed; a session whose turn
    returns closes it once. *)
Lemma failed_session_leaves_stream_open :
  fst (session (always unauthenticated_rpc) Json.loads sample_handler 1
         sample_world) = Raised (RpcError UNAUTHENTICATED)
  /\ closed_of (snd (session (always unauthenticated_rpc) Json.loads
                       sample_handler 1 sample_world)) = 0
  /\ closed_of (snd (session (always scenario_rpc) Json.loads
                       sample_handler 1 sample_world)) = 1.
Proof. repeat split. Qed.

(** * Further properties of a turn *)

(** ** Reading one kind of effect off a run *)

Lemma pull_world_yields (g : Generator) (w : World) :
  exists rs, trace (pull_world g w) = trace w ++ map Yielded rs.
Proof.
  destruct g; cbn.
  - exists [Config (config_of (self w))]. reflexivity.
  - destruct (fst (ConversationStream.next (conversation_stream (self w))))
      as [data |].
    + exists [AudioIn data]. reflexivity.
    + exists []. reflexivity.
  - exists []. cbn. rewrite app_nil_r. reflexivity.
Qed.

Lemma pull_world_display (g : Generator) (w : World) :
  display (self (pull_world g w)) = display (self w).
Proof. destruct g; reflexivity. Qed.

Section RunProjection.

Variable loads : string -> option Json.value.
Variable device_handler : Json.value -> list Future.
Variable X : Type.
Variable pick : Effect -> list X.
Variable per_response : AssistResponse.t -> bool -> list X.

Hypothesis pick_yielded : forall r, pick (Yielded r) = [].
Hypothesis pick_response :
  forall resp p d,
    flat_map pick (response_effects loads resp p d) = per_response resp d.

Lemma flat_map_pick_yielded (rs : list AssistRequest) :
  flat_map pick (map Yielded rs) = [].
Proof.
  induction rs as [| r rs IH]; [reflexivity |].
  cbn. rewrite pick_yielded, IH. reflexivity.
Qed.

(** Over the steps of an RPC, the effects of the kind [pick] selects are
    those of the processed responses, in arrival order. *)
Lemma run_projection ss :
  forall l w,
    exists d,
      trace (snd (run loads device_handler ss l w)) = trace w ++ d
      /\ flat_map pick d
         = flat_map (fun r => per_response r (display (self w)))
             (delivered (processed loads ss)).
Proof.
  induction ss as [| [| resp] ss IH]; intros l w.
  - exists []. cbn. rewrite app_nil_r. auto.
  - rewrite run_pull. cbn [processed].
    destruct (pull_world_yields (requests l) w) as (rs & T1).
    destruct (IH (with_requests (pull_generator (requests l) w) l)
                 (pull_world (requests l) w)) as (d2 & T2 & P2).
    exists (map Yielded rs ++ d2). rewrite T2, T1, app_assoc.
    split; [reflexivity |].
    rewrite flat_map_app, flat_map_pick_yielded, P2, pull_world_display.
    reflexivity.
  - rewrite run_deliver. cbn [processed].
    destruct (parses loads resp) eqn:Hp.
    + destruct (response_frame_parses loads device_handler resp l Hp)
        as (l1 & E & _).
      rewrite E.
      destruct (IH l1 (response_world loads resp w)) as (d2 & T2 & P2).
      eexists. rewrite T2. cbn [response_world trace].
      rewrite <- app_assoc. split; [reflexivity |].
      rewrite flat_map_app, pick_response, P2. reflexivity.
    + rewrite (response_frame_fails loads device_handler resp l Hp).
      eexists. cbn [snd response_world trace]. split; [reflexivity |].
      rewrite pick_response. cbn. rewrite app_nil_r. reflexivity.
Qed.

End RunProjection.

(** ** The effects of one attempt *)

(** An attempt starts recording, runs the steps of its RPC and, when it
    returns, closes with the wait and [stop_playback]. *)
Lemma assist_once_since (Assist : nat -> Rpc)
    (loads : string -> option Json.value)
    (device_handler : Json.value -> list Future) (w : World) :
  let after_loop :=
    run loads device_handler (steps (Assist (calls w))) frame0
      (attempt_start w) in
  since w (snd (assist_once Assist loads device_handler w))
  = Did_start_recording
    :: since (attempt_start w) (snd after_loop)
    ++ match fst after_loop, status (Assist (calls w)) with
       | Returned l, None => closing_effects l
       | _, _ => []
       end.
Proof.
  cbn zeta. rewrite assist_once_eq. cbn zeta.
  destruct (run_trace loads device_handler (steps (Assist (calls w)))
              frame0 (attempt_start w)) as (d & T & _).
  rewrite (@since_app _ _ _ T).
  destruct (run loads device_handler (steps (Assist (calls w))) frame0
              (attempt_start w)) as [[l | e] w1]; cbn [fst snd] in *.
  - destruct (status (Assist (calls w))); cbn [snd].
    + apply since_app. rewrite T. cbn. rewrite app_nil_r, <- app_assoc.
      reflexivity.
    + apply since_app. cbn. rewrite T. cbn. rewrite <- !app_assoc.
      reflexivity.
  - apply since_app. rewrite T. cbn. rewrite app_nil_r, <- app_assoc.
    reflexivity.
Qed.

(** ** Transcripts, device requests and the display *)

Section AttemptEffects.

Variable Assist : nat -> Rpc.
Variable loads : string -> option Json.value.
Variable device_handler : Json.value -> list Future.

Ltac open_effects resp :=
  destruct resp as [ev sp [ad] [tok vol mm] [js] [sd]];
  unfold response_effects, audio_of, json_of, screen_of, parses; cbn;
  destruct ev, (nonempty sp), ad, (vol =? 0)%Z, (truthy js), (loads js),
    (nonempty sd); cbn.

Lemma response_effects_logged resp p d :
  logged (response_effects loads resp p d)
  = if nonempty (AssistResponse.speech_results resp)
    then [transcripts (AssistResponse.speech_results resp)] else [].
Proof. open_effects resp; destruct p, d; reflexivity. Qed.

Lemma response_effects_handled resp p d :
  handled (response_effects loads resp p d) = decoded loads [resp].
Proof.
  unfold decoded. open_effects resp; destruct p, d; reflexivity.
Qed.

Lemma response_effects_displayed resp p d :
  displayed (response_effects loads resp p d)
  = if d && nonempty (screen_of resp) && parses loads resp
    then [screen_of resp] else [].
Proof. open_effects resp; destruct p, d; reflexivity. Qed.

Lemma response_effects_closing resp p d :
  filter (fun e => is_stop_playback e || is_wait e)
    (response_effects loads resp p d) = [].
Proof. open_effects resp; destruct p, d; reflexivity. Qed.

(** The effects of one kind in an attempt are those of its loop when the
    opening and closing effects are not of that kind. *)
Lemma assist_once_projection {X} (pick : Effect -> list X) (w : World) :
  pick Did_start_recording = [] ->
  pick Did_stop_playback = [] ->
  (forall fs, pick (Waited fs) = []) ->
  flat_map pick (since w (snd (assist_once Assist loads device_handler w)))
  = flat_map pick
      (since (attempt_start w)
         (snd (run loads device_handler (steps (Assist (calls w))) frame0
                 (attempt_start w)))).
Proof.
  intros H1 H2 H3. rewrite assist_once_since. cbn zeta.
  change (Did_start_recording :: ?x) with ([Did_start_recording] ++ x).
  rewrite !flat_map_app. cbn [flat_map]. rewrite H1. cbn [app].
  match goal with |- ?a ++ ?b = ?a => assert (E : b = []) end.
  { destruct (fst (run loads device_handler (steps (Assist (calls w)))
                     frame0 (attempt_start w))); [| reflexivity].
    destruct (status (Assist (calls w))); [reflexivity |].
    unfold closing_effects.
    destruct (nonempty (device_actions_futures a)); cbn;
      rewrite ?H2, ?H3; reflexivity. }
  rewrite E, app_nil_r. reflexivity.
Qed.

Lemma attempt_loop_projection {X} (pick : Effect -> list X)
    (per_response : AssistResponse.t -> bool -> list X) (w : World) :
  (forall r, pick (Yielded r) = []) ->
  (forall resp p d,
      flat_map pick (response_effects loads resp p d) = per_response resp d) ->
  flat_map pick
    (since (attempt_start w)
       (snd (run loads device_handler (steps (Assist (calls w))) frame0
               (attempt_start w))))
  = flat_map (fun r => per_response r (display (self w)))
      (delivered (processed loads (steps (Assist (calls w))))).
Proof.
  intros Hy Hr.
  destruct (@run_projection loads device_handler X pick per_response Hy Hr
              (steps (Assist (calls w))) frame0 (attempt_start w))
    as (d & T & P).
  rewrite (@since_app _ _ _ T). exact P.
Qed.

End AttemptEffects.

(** X1. The transcripts [assist] logs in one attempt are the joined
    transcripts of the responses that carry speech results, in arrival
    order, up to where the loop ends; a response without speech results
    logs none. *)
Theorem transcripts_logged_in_order :
  forall (Assist : nat -> Rpc) (loads : string -> option Json.value)
         (device_handler : Json.value -> list Future) (w : World),
    logged (since w (snd (assist_once Assist loads device_handler w)))
    = spoken (delivered (processed loads (steps (Assist (calls w))))).
Proof.
  intros Assist loads device_handler w. unfold logged.
  rewrite assist_once_projection by reflexivity.
  rewrite (@attempt_loop_projection Assist loads device_handler _
             (fun e => match e with Logged_transcript s => [s] | _ => [] end)
             (fun r _ =>
                if nonempty (AssistResponse.speech_results r)
                then [transcripts (AssistResponse.speech_results r)]
                else [])).
  - reflexivity.
  - reflexivity.
  - intros resp p d. apply response_effects_logged.
Qed.

Lemma delivered_cons (r : AssistResponse.t) (ss : list Step) :
  delivered (Deliver r :: ss) = r :: delivered ss.
Proof. reflexivity. Qed.

Lemma decoded_cons (loads : string -> option Json.value)
    (r : AssistResponse.t) (rs : list AssistResponse.t) :
  decoded loads (r :: rs) = decoded loads [r] ++ decoded loads rs.
Proof. unfold decoded. cbn [flat_map]. rewrite app_nil_r. reflexivity. Qed.

Lemma decoded_fails (loads : string -> option Json.value)
    (r : AssistResponse.t) :
  parses loads r = false -> decoded loads [r] = [].
Proof.
  unfold decoded, parses. cbn.
  destruct (truthy (json_of r)); [| discriminate].
  destruct (loads (json_of r)); [discriminate | reflexivity].
Qed.

Lemma decoded_flat_map (loads : string -> option Json.value)
    (rs : list AssistResponse.t) :
  flat_map (fun r => decoded loads [r]) rs = decoded loads rs.
Proof.
  induction rs as [| r rs IH]; [reflexivity |].
  cbn [flat_map]. rewrite IH, (decoded_cons loads r rs). reflexivity.
Qed.

(** X2. In one attempt the device handler is called once for every
    response whose device request is present and decodes, with the
    decoded request, in arrival order; it is not called for a response
    without a device request, for the response whose request does not
    decode, or for any response after that one. *)
Theorem device_handler_called_in_order :
  forall (Assist : nat -> Rpc) (loads : string -> option Json.value)
         (device_handler : Json.value -> list Future) (w : World),
    handled (since w (snd (assist_once Assist loads device_handler w)))
    = decoded loads (delivered (processed loads (steps (Assist (calls w)))))
    /\ decoded loads (delivered (processed loads (steps (Assist (calls w)))))
       = decoded loads (delivered (survived loads (steps (Assist (calls w))))).
Proof.
  intros Assist loads device_handler w. split.
  - unfold handled.
    rewrite assist_once_projection by reflexivity.
    rewrite (@attempt_loop_projection Assist loads device_handler _
               (fun e => match e with Handled v => [v] | _ => [] end)
               (fun r _ => decoded loads [r])).
    + apply decoded_flat_map.
    + reflexivity.
    + intros resp p d. apply response_effects_handled.
  - induction (steps (Assist (calls w))) as [| [| r] ss IH];
      cbn [processed survived].
    + reflexivity.
    + exact IH.
    + destruct (parses loads r) eqn:Hp.
      * rewrite !delivered_cons.
        rewrite (decoded_cons loads r (delivered (processed loads ss))).
        rewrite (decoded_cons loads r (delivered (survived loads ss))).
        rewrite IH. reflexivity.
      * rewrite delivered_cons.
        rewrite (decoded_cons loads r (delivered [])).
        rewrite (decoded_fails loads r Hp). reflexivity.
Qed.

(** X3. With [display] off nothing is ever displayed.  With it on, the
    payloads displayed in one attempt are the non-empty [screen_out.data]
    of the responses that [on_response] runs to its end, in arrival
    order: the response whose device request does not decode, and those
    after it, are not displayed. *)
Theorem screen_out_displayed_when_enabled :
  forall (Assist : nat -> Rpc) (loads : string -> option Json.value)
         (device_handler : Json.value -> list Future) (w : World),
    displayed (since w (snd (assist_once Assist loads device_handler w)))
    = if display (self w)
      then screens (delivered (survived loads (steps (Assist (calls w)))))
      else [].
Proof.
  intros Assist loads device_handler w. unfold displayed.
  rewrite assist_once_projection by reflexivity.
  rewrite (@attempt_loop_projection Assist loads device_handler _
             (fun e => match e with Displayed d => [d] | _ => [] end)
             (fun r d =>
                if d && nonempty (screen_of r) && parses loads r
                then [screen_of r] else [])).
  - induction (steps (Assist (calls w))) as [| [| r] ss IH]; cbn [processed survived].
    + destruct (display (self w)); reflexivity.
    + exact IH.
    + destruct (parses loads r) eqn:Hp.
      * rewrite !delivered_cons. cbn [flat_map]. rewrite IH, Hp.
        destruct (display (self w)); [| reflexivity].
        unfold screens. cbn [map filter andb].
        destruct (nonempty (screen_of r)); reflexivity.
      * rewrite delivered_cons. cbn [flat_map delivered]. rewrite Hp, andb_false_r.
        destruct (display (self w)); reflexivity.
  - reflexivity.
  - intros resp p d. apply response_effects_displayed.
Qed.

(** ** The output volume *)

Lemma next_volume (s : ConversationStream.t) :
  ConversationStream.volume_percentage (snd (ConversationStream.next s))
  = ConversationStream.volume_percentage s.
Proof.
  unfold ConversationStream.next.
  destruct (ConversationStream.recording s); [| reflexivity].
  destruct (ConversationStream.source s); reflexivity.
Qed.

Lemma pull_world_volume (g : Generator) (w : World) :
  volume_at (pull_world g w) = volume_at w.
Proof. destruct g; unfold volume_at; cbn; auto using next_volume. Qed.

Lemma response_stream_volume (resp : AssistResponse.t)
    (s : ConversationStream.t) :
  ConversationStream.volume_percentage (response_stream resp s)
  = if (volume_of resp =? 0)%Z
    then ConversationStream.volume_percentage s
    else volume_of resp.
Proof.
  destruct s as [m sr vp src snk cl].
  destruct resp as [ev sp [ad] [tok vol mm] [js] [sd]].
  unfold response_stream, audio_of, volume_of. cbn.
  destruct ev, ad, (vol =? 0)%Z, m; reflexivity.
Qed.

Lemma run_volume (loads : string -> option Json.value)
    (device_handler : Json.value -> list Future) (ss : list Step) :
  forall l w,
    volume_at (snd (run loads device_handler ss l w))
    = match last_volume (delivered (processed loads ss)) with
      | Some v => v
      | None => volume_at w
      end.
Proof.
  induction ss as [| [| resp] ss IH]; intros l w.
  - reflexivity.
  - rewrite run_pull. cbn [processed]. rewrite IH, pull_world_volume.
    reflexivity.
  - rewrite run_deliver. cbn [processed].
    destruct (parses loads resp) eqn:Hp.
    + destruct (response_frame_parses loads device_handler resp l Hp)
        as (l1 & E & _).
      rewrite E, IH, delivered_cons. cbn [last_volume].
      destruct (last_volume (delivered (processed loads ss)));
        [reflexivity |].
      unfold volume_at. cbn [response_world self conversation_stream].
      rewrite response_stream_volume.
      destruct (volume_of resp =? 0)%Z; reflexivity.
    + rewrite (response_frame_fails loads device_handler resp l Hp).
      cbn [snd delivered flat_map app last_volume].
      unfold volume_at. cbn [response_world self conversation_stream].
      rewrite response_stream_volume.
      destruct (volume_of resp =? 0)%Z; reflexivity.
Qed.

Lemma attempt_start_volume (w : World) :
  volume_at (attempt_start w) = volume_at w.
Proof. reflexivity. Qed.

Lemma attempt_end_volume (l : Frame) (w : World) :
  volume_at (attempt_end l w) = volume_at w.
Proof.
  unfold volume_at, attempt_end. cbn.
  unfold ConversationStream.stop_playback.
  destruct (ConversationStream.mode (conversation_stream (self w)));
    reflexivity.
Qed.

(** X4. The output volume after one attempt is the last
    [volume_percentage] other than zero that a processed response
    carried, and the volume before when there was none; it is the volume
    that the configuration of the next request generator carries. *)
Theorem volume_percentage_round_trip :
  forall (Assist : nat -> Rpc) (loads : string -> option Json.value)
         (device_handler : Json.value -> list Future) (w : World),
    let w' := snd (assist_once Assist loads device_handler w) in
    let volume :=
      match last_volume
              (delivered (processed loads (steps (Assist (calls w))))) with
      | Some v => v
      | None => volume_at w
      end in
    volume_at w' = volume
    /\ exists config,
        fst (gen_assist_requests GenCreated w')
        = Returned (Some (Config config), GenSuspended)
        /\ volume_in config = volume.
Proof.
  intros Assist loads device_handler w w' volume.
  assert (V : volume_at w' = volume).
  { subst w' volume. rewrite assist_once_eq. cbn zeta.
    pose proof (run_volume loads device_handler (steps (Assist (calls w)))
                  frame0 (attempt_start w)) as H.
    rewrite attempt_start_volume in H.
    destruct (run loads device_handler (steps (Assist (calls w))) frame0
                (attempt_start w)) as [[l | e] w1]; cbn [snd] in *.
    - destruct (status (Assist (calls w))); cbn [snd];
        rewrite ?attempt_end_volume; exact H.
    - exact H. }
  split; [exact V |].
  rewrite gen_assist_requests_created. cbn [fst].
  eexists. split; [reflexivity |]. exact V.
Qed.

(** ** An attempt that raises *)

Lemma pull_world_playing (g : Generator) (w : World) :
  is_playing (pull_world g w) = is_playing w.
Proof.
  destruct g; cbn; try reflexivity.
  unfold is_playing, ConversationStream.playing, ConversationStream.next.
  cbn.
  destruct (ConversationStream.recording (conversation_stream (self w)));
    [| reflexivity].
  destruct (ConversationStream.source (conversation_stream (self w)));
    reflexivity.
Qed.

Lemma response_stream_playing (resp : AssistResponse.t)
    (s : ConversationStream.t) :
  ConversationStream.playing (response_stream resp s)
  = ConversationStream.playing s || nonempty (audio_of resp).
Proof.
  destruct s as [m sr vp src snk cl].
  destruct resp as [ev sp [ad] [tok vol mm] [js] [sd]].
  unfold response_stream, audio_of. cbn.
  destruct ev, ad, (vol =? 0)%Z, m; reflexivity.
Qed.

(** Once started in the loop, playback is not stopped by the loop. *)
Lemma run_playing (loads : string -> option Json.value)
    (device_handler : Json.value -> list Future) (ss : list Step) :
  forall l w,
    is_playing (snd (run loads device_handler ss l w))
    = is_playing w
      || nonempty (audio_chunks (delivered (processed loads ss))).
Proof.
  induction ss as [| [| resp] ss IH]; intros l w.
  - cbn. rewrite orb_false_r. reflexivity.
  - rewrite run_pull. cbn [processed]. rewrite IH, pull_world_playing.
    reflexivity.
  - rewrite run_deliver. cbn [processed].
    assert (P : is_playing (response_world loads resp w)
                = is_playing w || nonempty (audio_of resp)).
    { unfold is_playing. cbn [response_world self conversation_stream].
      apply response_stream_playing. }
    destruct (parses loads resp) eqn:Hp.
    + destruct (response_frame_parses loads device_handler resp l Hp)
        as (l1 & E & _).
      rewrite E, IH, P, delivered_cons, audio_chunks_cons.
      destruct (is_playing w), (nonempty (audio_of resp)); reflexivity.
    + rewrite (response_frame_fails loads device_handler resp l Hp).
      cbn [snd]. rewrite P, delivered_cons, audio_chunks_cons.
      cbn [delivered flat_map audio_chunks map filter].
      destruct (is_playing w), (nonempty (audio_of resp)); reflexivity.
Qed.

Lemma filter_flat_map_nil {A} (p : A -> bool) (l : list A) :
  flat_map (fun e => if p e then [e] else []) l = filter p l.
Proof.
  induction l as [| a l IH]; [reflexivity |].
  cbn. rewrite IH. destruct (p a); reflexivity.
Qed.

Lemma existsb_filter_nil {A} (p : A -> bool) (l : list A) :
  filter p l = [] -> existsb p l = false.
Proof.
  induction l as [| a l IH]; [reflexivity |].
  cbn. destruct (p a); [discriminate | exact IH].
Qed.

(** X5. An attempt that raises, on a transport error or on a device
    request that does not decode, neither waits for the device actions
    nor stops playback; when one of its processed responses carried
    audio, the stream is left playing. *)
Theorem aborted_attempt_leaves_playback_running :
  forall (Assist : nat -> Rpc) (loads : string -> option Json.value)
         (device_handler : Json.value -> list Future) (w : World),
    completes loads (Assist (calls w)) = false ->
    let w' := snd (assist_once Assist loads device_handler w) in
    existsb is_stop_playback (since w w') = false
    /\ existsb is_wait (since w w') = false
    /\ (nonempty (chunks_of Assist loads (calls w)) = true ->
        is_playing w' = true).
Proof.
  intros Assist loads device_handler w Hc w'. subst w'.
  assert (F : filter (fun e => is_stop_playback e || is_wait e)
                (since w (snd (assist_once Assist loads device_handler w)))
              = []).
  { rewrite assist_once_since. cbn zeta.
    destruct (@run_projection loads device_handler Effect
                (fun e => if is_stop_playback e || is_wait e
                          then [e] else [])
                (fun _ _ => [])
                (fun r => eq_refl)
                (fun resp p d =>
                   eq_trans (filter_flat_map_nil _ _)
                     (response_effects_closing loads resp p d))
                (steps (Assist (calls w))) frame0 (attempt_start w))
      as (d & T & P).
    rewrite (@since_app _ _ _ T).
    rewrite filter_flat_map_nil in P.
    assert (P' : filter (fun e => is_stop_playback e || is_wait e) d = []).
    { rewrite P. clear.
      induction (delivered (processed loads (steps (Assist (calls w)))));
        [reflexivity | assumption]. }
    cbn [filter is_stop_playback is_wait orb]. rewrite filter_app, P'.
    cbn [app].
    unfold completes in Hc.
    destruct (forallb (parses loads) (delivered (steps (Assist (calls w)))))
      eqn:Hall.
    - destruct (status (Assist (calls w))); [| discriminate].
      destruct (fst (run loads device_handler (steps (Assist (calls w)))
                       frame0 (attempt_start w))); reflexivity.
    - rewrite (run_raises loads device_handler _ frame0 (attempt_start w)
                 Hall).
      reflexivity. }
  assert (S : forall p : Effect -> bool,
             (forall e, p e = true ->
                        (is_stop_playback e || is_wait e) = true) ->
             existsb p
               (since w (snd (assist_once Assist loads device_handler w)))
             = false).
  { intros p Hp.
    induction (since w (snd (assist_once Assist loads device_handler w)))
      as [| e t IH]; [reflexivity |].
    cbn in F |- *.
    destruct (is_stop_playback e || is_wait e) eqn:E; [discriminate |].
    destruct (p e) eqn:Pe.
    - rewrite (Hp e Pe) in E. discriminate.
    - exact (IH F). }
  repeat split.
  - apply S. intros e H. rewrite H. reflexivity.
  - apply S. intros e H. rewrite H. apply orb_true_r.
  - intro Ha. rewrite assist_once_eq. cbn zeta.
    pose proof (run_playing loads device_handler (steps (Assist (calls w)))
                  frame0 (attempt_start w)) as P.
    unfold chunks_of in Ha. rewrite Ha, orb_true_r in P.
    unfold completes in Hc.
    destruct (forallb (parses loads) (delivered (steps (Assist (calls w)))))
      eqn:Hall.
    + destruct (status (Assist (calls w))); [| discriminate].
      destruct (run loads device_handler (steps (Assist (calls w))) frame0
                  (attempt_start w)) as [[l | e0] w1]; exact P.
    + pose proof (run_raises loads device_handler _ frame0 (attempt_start w)
                    Hall) as Hr.
      destruct (run loads device_handler (steps (Assist (calls w))) frame0
                  (attempt_start w)) as [o w1].
      cbn in Hr. subst o. exact P.
Qed.

(** ** Attempts that are retried *)

Lemma count_app {A} (p : A -> bool) (a b : list A) :
  count p (a ++ b) = count p a + count p b.
Proof. unfold count. rewrite filter_app. apply length_app. Qed.

Lemma response_effects_start_recording
    (loads : string -> option Json.value) resp p d :
  filter is_start_recording (response_effects loads resp p d) = [].
Proof.
  destruct resp as [ev sp [ad] [tok vol mm] [js] [sd]].
  unfold response_effects, audio_of, json_of; cbn.
  destruct ev, (nonempty sp), ad, (vol =? 0)%Z, (truthy js), (loads js),
    (nonempty sd), p, d; reflexivity.
Qed.

Section Attempts.

Variable Assist : nat -> Rpc.
Variable loads : string -> option Json.value.
Variable device_handler : Json.value -> list Future.

(** One attempt starts recording once, and adds the audio of its
    processed responses to the sink. *)
Lemma assist_once_adds (w : World) :
  let w' := snd (assist_once Assist loads device_handler w) in
  (exists d, trace w' = trace w ++ d /\ count is_start_recording d = 1)
  /\ sink_of w' = sink_of w ++ chunks_of Assist loads (calls w).
Proof.
  cbn zeta. split.
  - exists (since w (snd (assist_once Assist loads device_handler w))).
    split.
    + rewrite assist_once_eq. cbn zeta.
      destruct (run_trace loads device_handler (steps (Assist (calls w)))
                  frame0 (attempt_start w)) as (d & T & _).
      destruct (run loads device_handler (steps (Assist (calls w))) frame0
                  (attempt_start w)) as [[l | e] w1]; cbn [snd] in *.
      * destruct (status (Assist (calls w))); cbn [snd].
        -- rewrite (@since_app w w1 (Did_start_recording :: d));
             rewrite T; cbn; rewrite <- app_assoc; reflexivity.
        -- rewrite (@since_app w (attempt_end l w1)
                      (Did_start_recording :: d ++ closing_effects l));
             cbn; rewrite T; cbn; rewrite <- !app_assoc; reflexivity.
      * rewrite (@since_app w w1 (Did_start_recording :: d));
          rewrite T; cbn; rewrite <- app_assoc; reflexivity.
    + rewrite assist_once_since. cbn zeta.
      destruct (@run_projection loads device_handler Effect
                  (fun e => if is_start_recording e then [e] else [])
                  (fun _ _ => [])
                  (fun r => eq_refl)
                  (fun resp p d =>
                     eq_trans (filter_flat_map_nil _ _)
                       (response_effects_start_recording loads resp p d))
                  (steps (Assist (calls w))) frame0 (attempt_start w))
        as (d & T & P).
      rewrite (@since_app _ _ _ T).
      rewrite filter_flat_map_nil in P.
      assert (P' : filter is_start_recording d = []).
      { rewrite P. clear.
        induction (delivered (processed loads (steps (Assist (calls w)))));
          [reflexivity | assumption]. }
      change (Did_start_recording :: ?x) with ([Did_start_recording] ++ x).
      rewrite !count_app. unfold count at 2. rewrite P'.
      destruct (fst (run loads device_handler (steps (Assist (calls w)))
                       frame0 (attempt_start w))); [| reflexivity].
      destruct (status (Assist (calls w))); [reflexivity |].
      unfold closing_effects.
      destruct (nonempty (device_actions_futures a)); reflexivity.
  - rewrite assist_once_eq. cbn zeta.
    pose proof (run_sink loads device_handler (steps (Assist (calls w)))
                  frame0 (attempt_start w)) as H.
    unfold sink_of, chunks_of.
    destruct (run loads device_handler (steps (Assist (calls w))) frame0
                (attempt_start w)) as [[l | e] w1]; cbn [snd] in *.
    + destruct (status (Assist (calls w))); cbn [snd]; [exact H |].
      cbn. unfold ConversationStream.stop_playback.
      destruct (ConversationStream.mode (conversation_stream (self w1)));
        exact H.
    + exact H.
Qed.

(** [k] attempts in a row. *)
Lemma attempts_add (k : nat) :
  forall w,
    let wk :=
      Nat.iter k (fun x => snd (assist_once Assist loads device_handler x)) w
    in
    calls wk = calls w + k
    /\ (exists d, trace wk = trace w ++ d /\ count is_start_recording d = k)
    /\ sink_of wk
       = sink_of w ++ flat_map (chunks_of Assist loads) (seq (calls w) k).
Proof.
  induction k as [| k IH]; intro w; cbn zeta.
  - cbn. rewrite Nat.add_0_r, !app_nil_r. repeat split.
    exists []. rewrite app_nil_r. auto.
  - rewrite Nat.iter_succ.
    destruct (IH w) as (C & (d & T & N) & Hs). cbn zeta in C, T, N, Hs.
    set (wk := Nat.iter k
                 (fun x => snd (assist_once Assist loads device_handler x)) w)
      in *.
    destruct (assist_once_adds wk) as ((d' & T' & N') & Hs').
    cbn zeta in T', Hs'.
    repeat split.
    + rewrite assist_once_calls, C. lia.
    + exists (d ++ d'). rewrite T', T, app_assoc. split; [reflexivity |].
      rewrite count_app, N, N'. lia.
    + rewrite Hs', Hs, C, <- app_assoc. f_equal.
      rewrite seq_S, flat_map_app. cbn. rewrite app_nil_r. reflexivity.
Qed.

End Attempts.

(** X6. What a failed attempt did is kept when [assist] retries.  Every
    attempt starts recording again, so recording is started as many times
    as RPCs are opened; and the sink receives the audio of every attempt
    in turn, that of the failed ones included. *)
Theorem retried_attempts_are_not_undone :
  forall (Assist : nat -> Rpc) (loads : string -> option Json.value)
         (device_handler : Json.value -> list Future) (w : World),
    let w' := snd (assist Assist loads device_handler w) in
    let n := calls w' - calls w in
    count is_start_recording (since w w') = n
    /\ sink_of w'
       = sink_of w ++ flat_map (chunks_of Assist loads) (seq (calls w) n).
Proof.
  intros Assist loads device_handler w w' n.
  assert (K : exists k,
             w' = Nat.iter k
                    (fun x => snd (assist_once Assist loads device_handler x))
                    w).
  { subst w'. unfold assist. rewrite retry_three_eq.
    destruct (transient (fst (assist_once Assist loads device_handler w))).
    - destruct (transient
                  (fst (assist_once Assist loads device_handler
                          (snd (assist_once Assist loads device_handler w))))).
      + exists 3. reflexivity.
      + exists 2. reflexivity.
    - exists 1. reflexivity. }
  destruct K as (k & K).
  destruct (attempts_add Assist loads device_handler k w)
    as (C & (d & T & N) & Hs).
  cbn zeta in C, T, N, Hs. rewrite <- K in C, T, Hs.
  assert (E : n = k) by (subst n; lia).
  rewrite E. split.
  - rewrite (@since_app _ _ _ T). exact N.
  - exact Hs.
Qed.

(** ** What every configuration carries *)

Section Identity.

Variable Assist : nat -> Rpc.
Variable loads : string -> option Json.value.
Variable device_handler : Json.value -> list Future.

Lemma identity_kept_refl w : identity_kept w w.
Proof. exists []. rewrite app_nil_r. repeat split. constructor. Qed.

Lemma identity_kept_trans a b c :
  identity_kept a b -> identity_kept b c -> identity_kept a c.
Proof.
  intros (d1 & T1 & I1 & F1) (d2 & T2 & I2 & F2).
  exists (d1 ++ d2). rewrite T2, T1, app_assoc. split; [reflexivity |].
  split; [congruence |].
  rewrite configs_app. apply Forall_app. split; [exact F1 |].
  assert (R : ConversationStream.sample_rate (conversation_stream (self b))
              = ConversationStream.sample_rate (conversation_stream (self a))).
  { unfold identity_of in I1. congruence. }
  rewrite I1, R in F2. exact F2.
Qed.

Lemma identity_quiet (w w' : World) (d : list Effect) :
  trace w' = trace w ++ d ->
  identity_of (self w') = identity_of (self w) ->
  configs d = [] ->
  identity_kept w w'.
Proof.
  intros T I Y. exists d. repeat split; try assumption.
  rewrite Y. constructor.
Qed.

Lemma next_sample_rate (s : ConversationStream.t) :
  ConversationStream.sample_rate (snd (ConversationStream.next s))
  = ConversationStream.sample_rate s.
Proof.
  unfold ConversationStream.next.
  destruct (ConversationStream.recording s); [| reflexivity].
  destruct (ConversationStream.source s); reflexivity.
Qed.

Lemma response_stream_sample_rate (resp : AssistResponse.t)
    (s : ConversationStream.t) :
  ConversationStream.sample_rate (response_stream resp s)
  = ConversationStream.sample_rate s.
Proof.
  destruct s as [m sr vp src snk cl].
  destruct resp as [ev sp [ad] [tok vol mm] [js] [sd]].
  unfold response_stream, audio_of. cbn.
  destruct ev, ad, (vol =? 0)%Z, m; reflexivity.
Qed.

Lemma identity_kept_step s l :
  preserves identity_kept (step loads device_handler s l).
Proof.
  intro w. destruct s as [| resp]; cbn [step].
  - unfold bind at 1. rewrite iter_log_assist_requests_eq. cbn [snd ret].
    destruct (requests l); cbn [pull_world].
    + eexists. split; [reflexivity |]. split; [reflexivity |].
      cbn. constructor; [| constructor].
      unfold identity_in, identity_of, config_of, linear16. cbn.
      destruct (display (self w)); repeat split.
    + apply (@identity_quiet w _
               match fst (ConversationStream.next
                            (conversation_stream (self w))) with
               | Some data => [Yielded (AudioIn data)]
               | None => []
               end).
      * reflexivity.
      * unfold identity_of. cbn. rewrite next_sample_rate. reflexivity.
      * destruct (fst (ConversationStream.next
                         (conversation_stream (self w)))); reflexivity.
    + apply identity_kept_refl.
  - rewrite on_response_eq. cbn [snd].
    eexists. split; [reflexivity |]. split.
    + unfold identity_of. cbn. rewrite response_stream_sample_rate.
      reflexivity.
    + unfold configs. rewrite response_effects_yielded. constructor.
Qed.

End Identity.

Lemma turns_identity_kept (Assist : nat -> Rpc)
    (loads : string -> option Json.value)
    (device_handler : Json.value -> list Future) (n : nat) :
  preserves identity_kept (turns Assist loads device_handler n).
Proof.
  apply preserves_turns.
  - exact identity_kept_refl.
  - exact identity_kept_trans.
  - apply identity_kept_step.
  - intro w. apply (@identity_quiet w _ [Did_start_recording]);
      reflexivity.
  - intro w. apply (@identity_quiet w _ []); try reflexivity.
    cbn. rewrite app_nil_r. reflexivity.
  - intros fs w. apply (@identity_quiet w _ [Waited fs]); reflexivity.
  - intro w. apply (@identity_quiet w _ [Did_stop_playback]);
      try reflexivity.
    unfold identity_of. cbn. unfold ConversationStream.stop_playback.
    destruct (ConversationStream.mode (conversation_stream (self w)));
      reflexivity.
Qed.

(** X7. Every configuration sent in a session, over any number of turns
    and retried attempts, carries the language code, the device model id,
    the device id and the sample rate (for audio in and audio out alike)
    that the assistant was built with, asks for [LINEAR16] both ways, and
    sets the screen mode to [PLAYING] exactly when [display] is on: a turn
    assigns none of these. *)
Theorem configuration_identity_is_constant :
  forall (Assist : nat -> Rpc) (loads : string -> option Json.value)
         (device_handler : Json.value -> list Future) (n : nat) (w : World),
    Forall
      (fun c =>
         identity_in c = identity_of (self w)
         /\ AudioInConfig.sample_rate_hertz (AssistConfig.audio_in_config c)
            = ConversationStream.sample_rate (conversation_stream (self w))
         /\ linear16 c = true)
      (configs (since w (snd (turns Assist loads device_handler n w))))
    /\ identity_of (self (snd (turns Assist loads device_handler n w)))
       = identity_of (self w).
Proof.
  intros Assist loads device_handler n w.
  destruct (turns_identity_kept Assist loads device_handler n w)
    as (d & T & I & F).
  rewrite (@since_app _ _ _ T). split; assumption.
Qed.

(** ** The audio sent *)

Lemma audio_payloads_app (a b : list AssistRequest) :
  audio_payloads (a ++ b) = audio_payloads a ++ audio_payloads b.
Proof. apply flat_map_app. Qed.

Lemma response_stream_source (resp : AssistResponse.t)
    (s : ConversationStream.t) :
  ConversationStream.source (response_stream resp s)
  = ConversationStream.source s.
Proof.
  destruct s as [m sr vp src snk cl].
  destruct resp as [ev sp [ad] [tok vol mm] [js] [sd]].
  unfold response_stream, audio_of. cbn.
  destruct ev, ad, (vol =? 0)%Z, m; reflexivity.
Qed.

(** A response never starts recording, and the end of the utterance
    stops it. *)
Lemma response_stream_recording (resp : AssistResponse.t)
    (s : ConversationStream.t) :
  ConversationStream.recording (response_stream resp s) = true ->
  ConversationStream.recording s = true
  /\ AssistResponse.event_type resp = EVENT_TYPE_UNSPECIFIED.
Proof.
  destruct s as [m sr vp src snk cl].
  destruct resp as [ev sp [ad] [tok vol mm] [js] [sd]].
  unfold response_stream, audio_of. cbn.
  destruct ev, ad, (vol =? 0)%Z, m; cbn; intro H;
    try discriminate; split; reflexivity.
Qed.

(** What one pull sends and leaves in the source. *)
Lemma pull_world_source (g : Generator) (w : World) :
  exists rs,
    trace (pull_world g w) = trace w ++ map Yielded rs
    /\ audio_payloads rs ++ source_at (pull_world g w) = source_at w
    /\ (is_recording w = false -> audio_payloads rs = [])
    /\ is_recording (pull_world g w) = is_recording w.
Proof.
  destruct g; cbn.
  - exists [Config (config_of (self w))]. repeat split.
  - unfold source_at, is_recording, ConversationStream.next. cbn.
    destruct (ConversationStream.recording (conversation_stream (self w)))
      eqn:R.
    + destruct (ConversationStream.source (conversation_stream (self w)))
        as [| chunk rest] eqn:Src; cbn.
      * exists []. cbn. rewrite R, Src. repeat split.
      * exists [AudioIn chunk]. cbn.
        unfold ConversationStream.recording in *. cbn. rewrite R.
        repeat split. discriminate.
    + exists []. cbn. rewrite R. repeat split.
  - exists []. cbn. rewrite app_nil_r. repeat split.
Qed.

Lemma yielded_map (rs : list AssistRequest) : yielded (map Yielded rs) = rs.
Proof.
  induction rs as [| r rs IH]; [reflexivity |].
  cbn. unfold yielded in IH. rewrite IH. reflexivity.
Qed.

(** Over the steps of an RPC the audio sent and the input left make up
    the input there was; with recording stopped, none is sent. *)
Lemma run_source (loads : string -> option Json.value)
    (device_handler : Json.value -> list Future) (ss : list Step) :
  forall l w,
    exists d,
      trace (snd (run loads device_handler ss l w)) = trace w ++ d
      /\ audio_payloads (yielded d)
         ++ source_at (snd (run loads device_handler ss l w))
         = source_at w
      /\ (is_recording w = false -> audio_payloads (yielded d) = []).
Proof.
  induction ss as [| [| resp] ss IH]; intros l w.
  - exists []. cbn. rewrite app_nil_r. auto.
  - rewrite run_pull.
    destruct (pull_world_source (requests l) w) as (rs & T1 & S1 & N1 & R1).
    destruct (IH (with_requests (pull_generator (requests l) w) l)
                 (pull_world (requests l) w)) as (d2 & T2 & S2 & N2).
    exists (map Yielded rs ++ d2). rewrite T2, T1, app_assoc.
    split; [reflexivity |].
    rewrite yielded_app, yielded_map, audio_payloads_app. split.
    + rewrite <- app_assoc, S2. exact S1.
    + intro H. rewrite (N1 H), N2; [reflexivity |]. rewrite R1. exact H.
  - rewrite run_deliver.
    assert (Src : source_at (response_world loads resp w) = source_at w).
    { unfold source_at. cbn. apply response_stream_source. }
    assert (Rec : is_recording w = false ->
                  is_recording (response_world loads resp w) = false).
    { unfold is_recording. cbn. intro H.
      destruct (ConversationStream.recording
                  (response_stream resp (conversation_stream (self w))))
        eqn:E; [| reflexivity].
      apply response_stream_recording in E. destruct E as [E _].
      congruence. }
    destruct (response_frame loads device_handler resp l) as [l1 | e].
    + destruct (IH l1 (response_world loads resp w)) as (d2 & T2 & S2 & N2).
      eexists. rewrite T2. cbn [response_world trace].
      rewrite <- app_assoc. split; [reflexivity |].
      rewrite yielded_app, response_effects_yielded. cbn [app].
      split; [rewrite S2; exact Src |].
      intro H. apply N2, Rec, H.
    + eexists. cbn [snd response_world trace]. split; [reflexivity |].
      rewrite response_effects_yielded. cbn. split; [exact Src | auto].
Qed.

(** X8. The audio requests of one attempt carry the input chunks of the
    stream in order, none skipped and none repeated: the audio sent,
    followed by the input left in the stream, is the input there was
    before the attempt.  Once a response with [END_OF_UTTERANCE] has been
    received, no further audio is sent in that RPC, whatever the
    transport pulls. *)
Theorem audio_in_follows_the_input :
  forall (loads : string -> option Json.value)
         (device_handler : Json.value -> list Future),
    (forall Assist w,
        let w' := snd (assist_once Assist loads device_handler w) in
        audio_payloads (yielded (since w w')) ++ source_at w' = source_at w)
    /\ (forall resp ss l w,
           AssistResponse.event_type resp = END_OF_UTTERANCE ->
           audio_payloads
             (yielded
                (since w
                   (snd (run loads device_handler (Deliver resp :: ss) l w))))
           = []).
Proof.
  intros loads device_handler. split.
  - intros Assist w w'. subst w'.
    rewrite assist_once_since. cbn zeta.
    destruct (run_source loads device_handler (steps (Assist (calls w)))
                frame0 (attempt_start w)) as (d & T & Hs & _).
    rewrite (@since_app _ _ _ T).
    change (Did_start_recording :: ?x) with ([Did_start_recording] ++ x).
    rewrite !yielded_app, !audio_payloads_app. cbn [yielded flat_map app].
    assert (C : forall (o : Outcome Frame) (st : option Exception),
               audio_payloads
                 (yielded
                    match o, st with
                    | Returned l, None => closing_effects l
                    | _, _ => []
                    end) = []).
    { intros [l | e] [e' |]; try reflexivity.
      unfold closing_effects.
      destruct (nonempty (device_actions_futures l)); reflexivity. }
    rewrite C, app_nil_r.
    rewrite assist_once_eq. cbn zeta.
    change (source_at (attempt_start w)) with (source_at w) in Hs.
    destruct (run loads device_handler (steps (Assist (calls w))) frame0
                (attempt_start w)) as [[l | e] w1]; cbn [snd] in *.
    + destruct (status (Assist (calls w))); cbn [snd]; [exact Hs |].
      assert (E : source_at (attempt_end l w1) = source_at w1).
      { unfold source_at, attempt_end. cbn.
        unfold ConversationStream.stop_playback.
        destruct (ConversationStream.mode (conversation_stream (self w1)));
          reflexivity. }
      rewrite E. exact Hs.
    + exact Hs.
  - intros resp ss l w Hev.
    rewrite run_deliver.
    assert (Rec : is_recording (response_world loads resp w) = false).
    { unfold is_recording. cbn.
      destruct (ConversationStream.recording
                  (response_stream resp (conversation_stream (self w))))
        eqn:E; [| reflexivity].
      apply response_stream_recording in E. destruct E as [_ E].
      congruence. }
    destruct (response_frame loads device_handler resp l) as [l1 | e].
    + destruct (run_source loads device_handler ss l1
                  (response_world loads resp w)) as (d & T & _ & N).
      rewrite (@since_app w _ (response_effects loads resp
                                 (ConversationStream.playing
                                    (conversation_stream (self w)))
                                 (display (self w)) ++ d)).
      * rewrite yielded_app, response_effects_yielded. exact (N Rec).
      * rewrite T. cbn. rewrite <- app_assoc. reflexivity.
    + cbn [snd].
      rewrite (@since_app w (response_world loads resp w)
                 (response_effects loads resp
                    (ConversationStream.playing
                       (conversation_stream (self w)))
                    (display (self w))) eq_refl).
      rewrite response_effects_yielded. reflexivity.
Qed.

(** * The device handlers and the set-up of [main] *)

(** ** Reading the humidity *)

Section HumidityFacts.

Variable read_dht11_dat : nat -> option (Z * Z).

Lemma humidity_poll_good (k : nat) :
  forall remaining i b h t,
    k < remaining ->
    (forall j, j < k -> read_dht11_dat (reads b + j) = None) ->
    read_dht11_dat (reads b + k) = Some (h, t) ->
    humidity_poll true read_dht11_dat remaining i b
    = (Some (h, t),
       {| reads := reads b + S k; sleeps := sleeps b + k;
          skipped := skipped b ++ seq i k; said := said b |}).
Proof.
  induction k as [| k IH]; intros remaining i b h t Hk Hbad Hgood;
    (destruct remaining as [| remaining]; [lia |]).
  - cbn. rewrite Nat.add_0_r in Hgood. rewrite Hgood.
    rewrite Nat.add_1_r, Nat.add_0_r, app_nil_r. reflexivity.
  - cbn [humidity_poll humidity_reading].
    pose proof (Hbad 0 (Nat.lt_0_succ k)) as H0.
    rewrite Nat.add_0_r in H0. rewrite H0. cbn [reads sleeps skipped said].
    rewrite (IH remaining (S i) _ h t); cbn [reads sleeps skipped said].
    + cbn [reads sleeps skipped said]. f_equal. f_equal; try lia.
      rewrite <- app_assoc. reflexivity.
    + lia.
    + intros j Hj. cbn [reads]. specialize (Hbad (S j)).
      rewrite Nat.add_succ_r in Hbad. apply Hbad. lia.
    + cbn [reads]. rewrite Nat.add_succ_r in Hgood. exact Hgood.
Qed.

Lemma humidity_poll_bad (remaining : nat) :
  forall i b,
    (forall j, j < remaining -> read_dht11_dat (reads b + j) = None) ->
    humidity_poll true read_dht11_dat remaining i b
    = (None,
       {| reads := reads b + remaining; sleeps := sleeps b + remaining;
          skipped := skipped b ++ seq i remaining; said := said b |}).
Proof.
  induction remaining as [| remaining IH]; intros i b Hbad.
  - cbn. rewrite !Nat.add_0_r, app_nil_r. destruct b; reflexivity.
  - cbn [humidity_poll humidity_reading].
    pose proof (Hbad 0 (Nat.lt_0_succ remaining)) as H0.
    rewrite Nat.add_0_r in H0. rewrite H0. cbn [reads sleeps skipped said].
    rewrite IH.
    + cbn [reads sleeps skipped said]. f_equal. f_equal; try lia.
      rewrite <- app_assoc. reflexivity.
    + intros j Hj. cbn [reads]. specialize (Hbad (S j)).
      rewrite Nat.add_succ_r in Hbad. apply Hbad. lia.
Qed.

Lemma humidity_poll_bounds (GPIO_FLAG : bool) (remaining : nat) :
  forall i b,
    let r := humidity_poll GPIO_FLAG read_dht11_dat remaining i b in
    reads (snd r) <= reads b + remaining
    /\ sleeps (snd r) <= sleeps b + remaining
    /\ said (snd r) = said b
    /\ sleeps (snd r) + List.length (skipped b)
       = sleeps b + List.length (skipped (snd r)).
Proof.
  induction remaining as [| remaining IH]; intros i b; cbn zeta.
  - cbn. repeat split; lia.
  - cbn [humidity_poll]. unfold humidity_reading.
    destruct GPIO_FLAG.
    + destruct (read_dht11_dat (reads b)) as [[h t] |].
      * cbn. repeat split; lia.
      * match goal with
        | |- context [humidity_poll true read_dht11_dat remaining (S i) ?b1] =>
            destruct (IH (S i) b1) as (R & Sl & Sa & D)
        end.
        cbn zeta in R, Sl, Sa, D. cbn [reads sleeps skipped said] in *.
        rewrite length_app in D. cbn [List.length] in D.
        repeat split; try lia. exact Sa.
    + cbn. repeat split; lia.
Qed.

End HumidityFacts.

(** X9. [humidity] reports the first good reading of the sensor.  When
    the reading number [k] of this call (counting from 0, [k] below 20)
    is the first that is not false, the handler has read the sensor
    [k + 1] times, slept [k] times, one half second after each bad
    reading, logged the indices 0 to [k - 1] as skipped, and says the
    humidity of that reading. *)
Theorem humidity_reports_first_good_reading :
  forall (read_dht11_dat : nat -> option (Z * Z)) (b : Bench)
         (k : nat) (h t : Z),
    k < 20 ->
    (forall j, j < k -> read_dht11_dat (reads b + j) = None) ->
    read_dht11_dat (reads b + k) = Some (h, t) ->
    humidity true read_dht11_dat b
    = {| reads := reads b + S k; sleeps := sleeps b + k;
         skipped := skipped b ++ seq 0 k;
         said := said b ++ [Said_humidity h] |}.
Proof.
  intros read_dht11_dat b k h t Hk Hbad Hgood. unfold humidity.
  rewrite (@humidity_poll_good read_dht11_dat k 20 0 b h t Hk Hbad Hgood).
  reflexivity.
Qed.

(** X10. When twenty readings in a row are false, [humidity] gives up: it
    has read the sensor exactly 20 times and slept 20 times, once after
    the last bad reading too, and says that reading the humidity timed
    out. *)
Theorem humidity_times_out_after_twenty_readings :
  forall (read_dht11_dat : nat -> option (Z * Z)) (b : Bench),
    (forall j, j < 20 -> read_dht11_dat (reads b + j) = None) ->
    humidity true read_dht11_dat b
    = {| reads := reads b + 20; sleeps := sleeps b + 20;
         skipped := skipped b ++ seq 0 20;
         said := said b ++ [Said_humidity_timeout] |}.
Proof.
  intros read_dht11_dat b Hbad. unfold humidity.
  rewrite (@humidity_poll_bad read_dht11_dat 20 0 b Hbad). reflexivity.
Qed.

(** X11. Whatever the sensor does, [humidity] reads it at most 20 times,
    sleeps as many times as it logs a skipped reading and at most 20
    times, and says exactly one thing; without the GPIO modules it
    neither reads nor sleeps and says a humidity of 0. *)
Theorem humidity_is_bounded :
  forall (GPIO_FLAG : bool) (read_dht11_dat : nat -> option (Z * Z))
         (b : Bench),
    let b' := humidity GPIO_FLAG read_dht11_dat b in
    reads b' <= reads b + 20
    /\ sleeps b' <= sleeps b + 20
    /\ sleeps b' + List.length (skipped b)
       = sleeps b + List.length (skipped b')
    /\ (exists report, said b' = said b ++ [report])
    /\ humidity false read_dht11_dat b
       = {| reads := reads b; sleeps := sleeps b; skipped := skipped b;
            said := said b ++ [Said_humidity 0] |}.
Proof.
  intros GPIO_FLAG read_dht11_dat b b'. subst b'. unfold humidity.
  destruct (@humidity_poll_bounds read_dht11_dat GPIO_FLAG 20 0 b)
    as (R & Sl & Sa & D).
  cbn zeta in R, Sl, Sa, D.
  destruct (humidity_poll GPIO_FLAG read_dht11_dat 20 0 b) as [result b1].
  cbn [snd reads sleeps skipped said] in *.
  repeat split; try assumption.
  rewrite Sa. eexists. reflexivity.
Qed.

(** ** The audio source and sink *)

(** X12. [main] creates at most one sound device.  With both an input and
    an output file it creates none; with neither, the source and the
    sink of the conversation stream are one and the same device; and a
    file that cannot be opened ends the set-up with no source and no
    sink. *)
Theorem sound_device_is_shared :
  forall (can_open : string -> bool)
         (input_audio_file output_audio_file : string),
    let s := configure_audio can_open input_audio_file output_audio_file in
    devices s <= 1
    /\ (truthy input_audio_file = true ->
        truthy output_audio_file = true -> devices s = 0)
    /\ (truthy input_audio_file = false ->
        truthy output_audio_file = false ->
        s = {| ends := Some (SoundDeviceStream 0, SoundDeviceStream 0);
               devices := 1 |})
    /\ (ends s = None <->
        (truthy input_audio_file = true
         /\ can_open input_audio_file = false)
        \/ ((truthy input_audio_file = false
             \/ can_open input_audio_file = true)
            /\ truthy output_audio_file = true
            /\ can_open output_audio_file = false)).
Proof.
  intros can_open i o s. subst s. unfold configure_audio, device_or_new.
  destruct (truthy i) eqn:Ti, (truthy o) eqn:To;
    destruct (can_open i) eqn:Ci; destruct (can_open o) eqn:Co;
    cbn; repeat split; try lia; try discriminate; try reflexivity;
    try (intros [[? ?] | [[? | ?] [? ?]]]; discriminate);
    try (intros _; tauto).
Qed.

(** ** The device of the gRPC sample *)

(** X13. The configuration file is consulted only when a device id or a
    model id is missing on the command line.  With both given they are
    used as they are.  Otherwise, when the file holds both [id] and
    [model_id], both are taken from the file, a model id given on the
    command line being dropped for the one in the file; nothing is
    posted or written in either case. *)
Theorem device_config_file_overrides_options :
  forall (uuid1 : string) (post : string -> dict -> option Z)
         (writable : bool)
         (api_endpoint project_id device_id device_model_id : string),
    (truthy device_id = true ->
     truthy device_model_id = true ->
     forall device_config,
       Pushtotalk.device_setup uuid1 post writable api_endpoint project_id
         device_id device_model_id device_config
       = {| Pushtotalk.ending := Pushtotalk.Ready device_id device_model_id;
            Pushtotalk.posts := [];
            Pushtotalk.saved := None |})
    /\ (forall device id model_id,
           truthy device_id && truthy device_model_id = false ->
           lookup "id" device = Some id ->
           lookup "model_id" device = Some model_id ->
           Pushtotalk.device_setup uuid1 post writable api_endpoint
             project_id device_id device_model_id (Some device)
           = {| Pushtotalk.ending := Pushtotalk.Ready id model_id;
                Pushtotalk.posts := [];
                Pushtotalk.saved := None |}).
Proof.
  intros uuid1 post writable api_endpoint project_id device_id
    device_model_id.
  split.
  - intros Hd Hm device_config. unfold Pushtotalk.device_setup.
    rewrite Hd, Hm. reflexivity.
  - intros device id model_id H Hid Hmodel. unfold Pushtotalk.device_setup.
    rewrite <- negb_andb, H, Hid, Hmodel. reflexivity.
Qed.

Ltac quiet :=
  cbn; repeat split; intros; try discriminate; try lia;
  repeat match goal with
         | H : Pushtotalk.Exit _ = Pushtotalk.Exit _ |- _ =>
             injection H as <-
         end;
  auto.

(** X14. A device is registered with at most one POST, and never without
    both a model id and a project id: when the configuration file cannot
    be used and one of them is missing, [main] exits with -1 before any
    request.  The file is written only after a reply with status 200,
    and then with the payload that was posted; every exit is with
    -1 and leaves the file as it was. *)
Theorem device_registration_is_guarded :
  forall (uuid1 : string) (post : string -> dict -> option Z)
         (writable : bool)
         (api_endpoint project_id device_id device_model_id : string)
         (device_config : option dict),
    let r :=
      Pushtotalk.device_setup uuid1 post writable api_endpoint project_id
        device_id device_model_id device_config in
    List.length (Pushtotalk.posts r) <= 1
    /\ (truthy device_model_id && truthy project_id = false ->
        Pushtotalk.posts r = [])
    /\ (forall d,
           Pushtotalk.saved r = Some d ->
           exists url,
             Pushtotalk.posts r = [(url, d)]
             /\ post url d = Some 200%Z
             /\ d = [("id", uuid1); ("model_id", device_model_id);
                     ("client_type", "SDK_SERVICE")]
             /\ Pushtotalk.ending r = Pushtotalk.Ready uuid1 device_model_id)
    /\ (forall code,
           Pushtotalk.ending r = Pushtotalk.Exit code ->
           code = (-1)%Z /\ Pushtotalk.saved r = None).
Proof.
  intros uuid1 post writable api_endpoint project_id device_id
    device_model_id device_config r.
  assert (R : forall r0,
             r0 = Pushtotalk.register uuid1 post writable api_endpoint
                    project_id device_model_id ->
             List.length (Pushtotalk.posts r0) <= 1
             /\ (truthy device_model_id && truthy project_id = false ->
                 Pushtotalk.posts r0 = [])
             /\ (forall d,
                    Pushtotalk.saved r0 = Some d ->
                    exists url,
                      Pushtotalk.posts r0 = [(url, d)]
                      /\ post url d = Some 200%Z
                      /\ d = [("id", uuid1); ("model_id", device_model_id);
                              ("client_type", "SDK_SERVICE")]
                      /\ Pushtotalk.ending r0
                         = Pushtotalk.Ready uuid1 device_model_id)
             /\ (forall code,
                    Pushtotalk.ending r0 = Pushtotalk.Exit code ->
                    code = (-1)%Z /\ Pushtotalk.saved r0 = None)).
  { intros r0 ->. unfold Pushtotalk.register.
    destruct (truthy device_model_id); cbn [negb andb]; [| quiet].
    destruct (truthy project_id); cbn [negb andb]; [| quiet].
    match goal with
    | |- context [post ?u ?p] => destruct (post u p) as [status |] eqn:P
    end; [| quiet].
    destruct (status =? 200)%Z eqn:St; cbn [negb]; [| quiet].
    apply Z.eqb_eq in St. subst status.
    destruct writable; [| quiet].
    cbn. repeat split; intros; try discriminate; auto.
    match goal with
    | H : Some _ = Some _ |- _ => injection H as <-
    end.
    eexists. repeat split. exact P. }
  subst r. unfold Pushtotalk.device_setup.
  destruct (negb (truthy device_id) || negb (truthy device_model_id)).
  - destruct device_config as [device |]; [| apply R; reflexivity].
    destruct (lookup "id" device), (lookup "model_id" device);
      try (apply R; reflexivity).
    quiet.
  - quiet.
Qed.

(** X15. Registration is remembered.  When a run has written the
    configuration file, a later run with the same options reads the
    device id and the model id it registered from that file and goes on
    with them, posting nothing and writing nothing, whatever new
    identifier and network it meets. *)
Theorem device_registration_round_trip :
  forall (uuid1 : string) (post : string -> dict -> option Z)
         (writable : bool)
         (api_endpoint project_id device_id device_model_id : string)
         (device_config : option dict) (d : dict),
    let first :=
      Pushtotalk.device_setup uuid1 post writable api_endpoint project_id
        device_id device_model_id device_config in
    Pushtotalk.saved first = Some d ->
    forall uuid1' post' writable',
      Pushtotalk.device_setup uuid1' post' writable' api_endpoint project_id
        device_id device_model_id
        (Pushtotalk.config_after device_config first)
      = {| Pushtotalk.ending := Pushtotalk.ending first;
           Pushtotalk.posts := [];
           Pushtotalk.saved := None |}
      /\ Pushtotalk.ending first = Pushtotalk.Ready uuid1 device_model_id.
Proof.
  intros uuid1 post writable api_endpoint project_id device_id
    device_model_id device_config d first Hsaved uuid1' post' writable'.
  unfold Pushtotalk.config_after. rewrite Hsaved.
  assert (N : negb (truthy device_id) || negb (truthy device_model_id)
              = true).
  { subst first. unfold Pushtotalk.device_setup in Hsaved.
    destruct (negb (truthy device_id) || negb (truthy device_model_id));
      [reflexivity | discriminate]. }
  assert (E : d = [("id", uuid1); ("model_id", device_model_id);
                   ("client_type", "SDK_SERVICE")]
              /\ Pushtotalk.ending first
                 = Pushtotalk.Ready uuid1 device_model_id).
  { subst first. unfold Pushtotalk.device_setup in *. rewrite N in *.
    assert (R : forall r0,
               r0 = Pushtotalk.register uuid1 post writable api_endpoint
                      project_id device_model_id ->
               Pushtotalk.saved r0 = Some d ->
               d = [("id", uuid1); ("model_id", device_model_id);
                    ("client_type", "SDK_SERVICE")]
               /\ Pushtotalk.ending r0
                  = Pushtotalk.Ready uuid1 device_model_id).
    { intros r0 ->. unfold Pushtotalk.register.
      destruct (truthy device_model_id); cbn [negb]; [| discriminate].
      destruct (truthy project_id); cbn [negb]; [| discriminate].
      match goal with
      | |- context [post ?u ?p] => destruct (post u p) as [status |]
      end; [| discriminate].
      destruct (status =? 200)%Z; cbn [negb]; [| discriminate].
      destruct writable; [| discriminate].
      cbn. intros [= <-]. split; reflexivity. }
    destruct device_config as [device |]; [| apply R; auto].
    destruct (lookup "id" device), (lookup "model_id" device);
      try (apply R; auto); discriminate. }
  destruct E as [-> E]. split; [| exact E].
  unfold Pushtotalk.device_setup. rewrite N, E. reflexivity.
Qed.

(** ** The device of the library sample *)

(** X16. In [hotword.py] the model id given on the command line wins over
    the stored one, and the assistant is never started under an empty
    model id: [main] raises for the missing option exactly when the
    option is not given and the file is absent or stores an empty model
    id.  A configuration file that decodes but has no [model_id] makes
    [main] raise even when the option is given. *)
Theorem hotword_model_id_resolution :
  forall (writable : bool)
         (args_device_model_id args_project_id args_nickname : string)
         (file : Hotword.ConfigFile) (device_id : string),
    let r :=
      Hotword.main_setup writable args_device_model_id args_project_id
        args_nickname file device_id in
    (forall m,
        Hotword.ending r = Hotword.Started m ->
        truthy m = true
        /\ (truthy args_device_model_id = true -> m = args_device_model_id))
    /\ (forall stored last,
           Hotword.load_config file = Some (stored, last) ->
           (Hotword.ending r = Hotword.Missing_option
            <-> truthy args_device_model_id = false
                /\ Hotword.truthy_option stored = false))
    /\ (forall device_config,
           file = Hotword.Holds device_config ->
           lookup "model_id" device_config = None ->
           r = {| Hotword.ending := Hotword.Raises;
                  Hotword.registrations := [];
                  Hotword.warned := false;
                  Hotword.saved := None |}).
Proof.
  intros writable a p n file device_id r. subst r.
  unfold Hotword.main_setup. repeat apply conj.
  - intros m.
    destruct (Hotword.load_config file) as [[stored last] |];
      [| discriminate].
    destruct (truthy a) eqn:Ta; cbn [negb andb].
    + destruct (Hotword.differs a stored || Hotword.differs device_id last);
        cbn [andb orb];
        [destruct (truthy p); [destruct writable |] |];
        cbn; try discriminate; intros [= <-]; auto.
    + destruct stored as [v |]; cbn [Hotword.truthy_option].
      * destruct (truthy v) eqn:Tv; cbn [negb]; [| discriminate].
        destruct (Hotword.differs device_id last); cbn [orb];
          [destruct (truthy p); [destruct writable |] |];
          cbn; try discriminate; intros [= <-]; split; auto; discriminate.
      * discriminate.
  - intros stored last ->.
    destruct (truthy a) eqn:Ta; cbn [negb andb].
    + split; [| intros [? _]; discriminate].
      destruct (Hotword.differs a stored || Hotword.differs device_id last);
        cbn [andb orb];
        [destruct (truthy p); [destruct writable |] |]; discriminate.
    + destruct (Hotword.truthy_option stored) eqn:Ts; cbn [negb].
      * split; [| intros [_ ?]; discriminate].
        destruct (Hotword.differs device_id last); cbn [orb];
          [destruct (truthy p); [destruct writable |] |]; discriminate.
      * split; auto.
  - intros device_config -> H. cbn. rewrite H. reflexivity.
Qed.

Lemma eqb_differs (a : string) : Hotword.differs a (Some a) = false.
Proof. cbn. rewrite String.eqb_refl. reflexivity. Qed.

(** X17. In [hotword.py] registration is remembered.  When a run has
    written the configuration file, a later run with the same options
    under the same device id starts the assistant under the same model
    id and neither registers, nor warns, nor writes. *)
Theorem hotword_registration_round_trip :
  forall (writable : bool)
         (args_device_model_id args_project_id args_nickname : string)
         (file : Hotword.ConfigFile) (device_id : string) (d : dict),
    let first :=
      Hotword.main_setup writable args_device_model_id args_project_id
        args_nickname file device_id in
    Hotword.saved first = Some d ->
    forall writable',
      Hotword.main_setup writable' args_device_model_id args_project_id
        args_nickname (Hotword.file_after file first) device_id
      = {| Hotword.ending := Hotword.ending first;
           Hotword.registrations := [];
           Hotword.warned := false;
           Hotword.saved := None |}.
Proof.
  intros writable a p n file device_id d first Hsaved writable'.
  unfold Hotword.file_after. rewrite Hsaved.
  subst first. unfold Hotword.main_setup in Hsaved |- *.
  destruct (Hotword.load_config file) as [[stored last] |];
    [| discriminate].
  destruct (negb (truthy a) && negb (Hotword.truthy_option stored)) eqn:M;
    [discriminate |].
  destruct (truthy a && Hotword.differs a stored
            || Hotword.differs device_id last); [| discriminate].
  destruct (truthy p); [| discriminate].
  destruct writable; [| discriminate].
  cbn in Hsaved. injection Hsaved as <-.
  cbn [Hotword.load_config lookup Hotword.ending].
  cbn. rewrite String.eqb_refl.
  destruct (truthy a) eqn:Ta.
  - cbn. rewrite String.eqb_refl. reflexivity.
  - cbn in M. destruct stored as [v |]; [| discriminate].
    cbn in M. apply negb_false_iff in M. cbn. rewrite M. reflexivity.
Qed.

(** ** The hot-word callback *)


(** * More concrete runs *)

(** X5, at: an attempt that is cut short after its audio. *)
Lemma aborted_attempt_leaves_playback_running_witness :
  completes Json.loads (always interrupted_rpc (calls sample_world)) = false
  /\ existsb is_stop_playback
       (since sample_world
          (snd (assist_once (always interrupted_rpc) Json.loads
                  sample_handler sample_world))) = false
  /\ is_playing
       (snd (assist_once (always interrupted_rpc) Json.loads sample_handler
               sample_world)) = true.
Proof.
  split; [reflexivity |].
  pose proof (@aborted_attempt_leaves_playback_running
                (always interrupted_rpc) Json.loads sample_handler
                sample_world eq_refl) as H.
  cbv zeta in H. destruct H as (H1 & _ & H3).
  split; [exact H1 | exact (H3 eq_refl)].
Defined.

(** X8, at: the end of the utterance, then two pulls by the transport. *)
Lemma audio_in_follows_the_input_witness :
  AssistResponse.event_type (Response.event END_OF_UTTERANCE)
  = END_OF_UTTERANCE
  /\ audio_payloads
       (yielded
          (since (attempt_start sample_world)
             (snd (run Json.loads sample_handler
                     [Deliver (Response.event END_OF_UTTERANCE); Pull; Pull]
                     frame0 (attempt_start sample_world))))) = [].
Proof.
  split; [reflexivity |].
  exact (proj2 (@audio_in_follows_the_input Json.loads sample_handler)
           (Response.event END_OF_UTTERANCE) [Pull; Pull] frame0
           (attempt_start sample_world) eq_refl).
Defined.

(** X9, at: two bad readings, then 40 percent. *)
Lemma humidity_reports_first_good_reading_witness :
  2 < 20
  /\ slow_sensor (reads empty_bench + 2) = Some (40, 25)%Z
  /\ humidity true slow_sensor empty_bench
     = {| reads := 3; sleeps := 2; skipped := [0; 1];
          said := [Said_humidity 40] |}.
Proof.
  assert (Hk : 2 < 20) by (repeat constructor).
  split; [exact Hk |]. split; [reflexivity |].
  refine (@humidity_reports_first_good_reading slow_sensor empty_bench
            2 40%Z 25%Z Hk _ eq_refl).
  intros [| [| j]] Hj; try reflexivity.
  exfalso. apply (Nat.lt_irrefl 2).
  apply (Nat.le_lt_trans _ (S (S j))); [| exact Hj].
  apply le_n_S, le_n_S, Nat.le_0_l.
Defined.

(** X10, at: no reading at all. *)
Lemma humidity_times_out_after_twenty_readings_witness :
  humidity true dead_sensor empty_bench
  = {| reads := 20; sleeps := 20; skipped := seq 0 20;
       said := [Said_humidity_timeout] |}.
Proof.
  exact (@humidity_times_out_after_twenty_readings dead_sensor empty_bench
           (fun j _ => eq_refl)).
Defined.

(** X12, at: no files, and two files. *)
Lemma sound_device_is_shared_witness :
  configure_audio (fun _ => true) EmptyString EmptyString
  = {| ends := Some (SoundDeviceStream 0, SoundDeviceStream 0);
       devices := 1 |}
  /\ devices (configure_audio (fun _ => true) "in.wav" "out.wav") = 0.
Proof.
  split.
  - exact (proj1 (proj2 (proj2
             (@sound_device_is_shared (fun _ => true) EmptyString
                EmptyString))) eq_refl eq_refl).
  - exact (proj1 (proj2
             (@sound_device_is_shared (fun _ => true) "in.wav" "out.wav"))
             eq_refl eq_refl).
Defined.

(** X13, at: a model id on the command line, and a file that stores another. *)
Lemma device_config_file_overrides_options_witness :
  truthy EmptyString && truthy "given-model" = false
  /\ lookup "id" stored_device = Some "stored-id"
  /\ lookup "model_id" stored_device = Some "stored-model"
  /\ Pushtotalk.device_setup "new-id" accepting true "host" "project"
       EmptyString "given-model" (Some stored_device)
     = {| Pushtotalk.ending := Pushtotalk.Ready "stored-id" "stored-model";
          Pushtotalk.posts := [];
          Pushtotalk.saved := None |}
  /\ Pushtotalk.device_setup "new-id" accepting true "host" "project"
       "given-id" "given-model" (Some stored_device)
     = {| Pushtotalk.ending := Pushtotalk.Ready "given-id" "given-model";
          Pushtotalk.posts := [];
          Pushtotalk.saved := None |}.
Proof.
  do 3 (split; [reflexivity |]). split.
  - exact (proj2 (@device_config_file_overrides_options "new-id" accepting
                    true "host" "project" EmptyString "given-model")
             stored_device "stored-id" "stored-model"
             eq_refl eq_refl eq_refl).
  - exact (proj1 (@device_config_file_overrides_options "new-id" accepting
                    true "host" "project" "given-id" "given-model")
             eq_refl eq_refl (Some stored_device)).
Defined.

(** X14, at: no project id, and so no request. *)
Lemma device_registration_is_guarded_witness :
  truthy "given-model" && truthy EmptyString = false
  /\ Pushtotalk.posts
       (Pushtotalk.device_setup "new-id" accepting true "host" EmptyString
          EmptyString "given-model" None) = []
  /\ Pushtotalk.ending
       (Pushtotalk.device_setup "new-id" accepting true "host" EmptyString
          EmptyString "given-model" None) = Pushtotalk.Exit (-1).
Proof.
  split; [reflexivity |]. split; [| reflexivity].
  exact (proj1 (proj2
           (@device_registration_is_guarded "new-id" accepting true "host"
              EmptyString EmptyString "given-model" None)) eq_refl).
Defined.

(** X15, at: a first run that registers, then a second one. *)
Lemma device_registration_round_trip_witness :
  Pushtotalk.saved
    (Pushtotalk.device_setup "new-id" accepting true "host" "project"
       EmptyString "given-model" None)
  = Some [("id", "new-id"); ("model_id", "given-model");
          ("client_type", "SDK_SERVICE")]
  /\ Pushtotalk.device_setup "other-id" (fun _ _ => None) false "host"
       "project" EmptyString "given-model"
       (Pushtotalk.config_after None
          (Pushtotalk.device_setup "new-id" accepting true "host" "project"
             EmptyString "given-model" None))
     = {| Pushtotalk.ending :=
            Pushtotalk.ending
              (Pushtotalk.device_setup "new-id" accepting true "host"
                 "project" EmptyString "given-model" None);
          Pushtotalk.posts := [];
          Pushtotalk.saved := None |}.
Proof.
  split; [reflexivity |].
  exact (proj1 (@device_registration_round_trip "new-id" accepting true
                  "host" "project" EmptyString "given-model" None
                  [("id", "new-id"); ("model_id", "given-model");
                   ("client_type", "SDK_SERVICE")]
                  eq_refl "other-id" (fun _ _ => None) false)).
Defined.

(** X16, at: a file without a model id, and a model id on the command line. *)
Lemma hotword_model_id_resolution_witness :
  lookup "model_id" [("last_device_id", "device")] = None
  /\ Hotword.main_setup true "given-model" "project" "nick"
       (Hotword.Holds [("last_device_id", "device")]) "device"
     = {| Hotword.ending := Hotword.Raises;
          Hotword.registrations := [];
          Hotword.warned := false;
          Hotword.saved := None |}
  /\ Hotword.ending
       (Hotword.main_setup true "given-model" "project" "nick"
          (Hotword.Holds [("model_id", "stored-model")]) "device")
     = Hotword.Started "given-model"
  /\ truthy "given-model" = true.
Proof.
  split; [reflexivity |]. split.
  - exact (proj2 (proj2
             (@hotword_model_id_resolution true "given-model" "project"
                "nick" (Hotword.Holds [("last_device_id", "device")])
                "device"))
             [("last_device_id", "device")] eq_refl eq_refl).
  - split; [reflexivity |].
    exact (proj1 (proj1
             (@hotword_model_id_resolution true "given-model" "project"
                "nick" (Hotword.Holds [("model_id", "stored-model")])
                "device")
             "given-model" eq_refl)).
Defined.

(** X17, at: a first run that registers, then a second one. *)
Lemma hotword_registration_round_trip_witness :
  Hotword.saved
    (Hotword.main_setup true "given-model" "project" "nick" Hotword.NotFound
       "device")
  = Some [("last_device_id", "device"); ("model_id", "given-model")]
  /\ Hotword.main_setup false "given-model" "project" "nick"
       (Hotword.file_after Hotword.NotFound
          (Hotword.main_setup true "given-model" "project" "nick"
             Hotword.NotFound "device"))
       "device"
     = {| Hotword.ending :=
            Hotword.ending
              (Hotword.main_setup true "given-model" "project" "nick"
                 Hotword.NotFound "device");
          Hotword.registrations := [];
          Hotword.warned := false;
          Hotword.saved := None |}.
Proof.
  split; [reflexivity |].
  exact (@hotword_registration_round_trip true "given-model" "project"
           "nick" Hotword.NotFound "device"
           [("last_device_id", "device"); ("model_id", "given-model")]
           eq_refl false).
Defined.

